(** * xboard-dynamic-rate: a shallow embedding of [src/index.js]

    The script logs in to an xboard panel, fetches the node list, and for
    every configured node whose rate window is active at the current time
    posts the node back with its [rate] overwritten.

    Layout of this development:
    - [Js]      : the JSON-like values the script manipulates and the two
                  JavaScript primitives it applies to them ([===] and
                  truthiness);
    - [Clock]   : the part of moment-timezone used by [isTimeBetween];
    - [Rate]    : the nested loop of [DynamicRate.changeRate];
    - [Run]     : a small state-and-exception monad, the [XBClient] methods,
                  [changeRate] and the entry point;
    - theorems. *)

From Stdlib Require Import ZArith QArith Lia.
From stdpp Require Import gmap strings list fin_maps pretty sorting.

Local Open Scope Z_scope.

(* ===================================================================== *)
(** ** JavaScript values *)
(* ===================================================================== *)

Module Js.

(** Values that reach the script through [JSON] (panel replies) or YAML
    (the configuration file).  Numbers are IEEE doubles in the source; the
    script only ever compares them with [===] and tests them for
    truthiness, so the finite ones are represented by the rational they
    denote and [NaN] is kept apart. *)
#[local] Set Warnings "-register-all".
Inductive value : Type :=
  | VUndefined
  | VNull
  | VBool (b : bool)
  | VNum (q : Q)
  | VNaN
  | VStr (s : string)
  | VArr (elems : list value)
  | VObj (fields : gmap string value).

(** A JavaScript object with string keys.  Reading a key that is not there
    yields [undefined]. *)
Abbreviation object := (gmap string value).

Definition get (o : object) (key : string) : value :=
  default VUndefined (o !! key).

(** [!!v] in JavaScript. *)
Definition truthy (v : value) : bool :=
  match v with
  | VUndefined | VNull | VNaN => false
  | VBool b => b
  | VNum q => negb (Qeq_bool q 0)
  | VStr s => negb (String.eqb s "")
  | VArr _ | VObj _ => true
  end.

(** [a === b].  Arrays and objects are compared by reference in the source;
    every use in the script compares a value read from the panel's reply
    with one read from the configuration file, which are never the same
    reference. *)
Definition strict_eq (a b : value) : bool :=
  match a, b with
  | VUndefined, VUndefined => true
  | VNull, VNull => true
  | VBool x, VBool y => Bool.eqb x y
  | VNum x, VNum y => Qeq_bool x y
  | VStr x, VStr y => String.eqb x y
  | _, _ => false
  end.

End Js.
Export Js.

(* ===================================================================== *)
(** ** Time of day in Asia/Shanghai *)
(* ===================================================================== *)

Module Clock.

Definition MS_PER_DAY : Z := 86400000.

(** Asia/Shanghai is at a fixed offset of eight hours from UTC. *)
Definition SHANGHAI_OFFSET_MS : Z := 8 * 3600 * 1000.

(** An instant is a number of milliseconds since the epoch; a moment is an
    instant or invalid (a string that did not parse). *)
Definition moment := option Z.

(** The wall-clock time in Shanghai at instant [t], in milliseconds since
    local midnight: the "now" of a time window. *)
Definition time_of_day (t : Z) : Z := (t + SHANGHAI_OFFSET_MS) mod MS_PER_DAY.

(** The instant of the Shanghai midnight before [t]. *)
Definition start_of_day (t : Z) : Z := t - time_of_day t.

(** A parsed ["HH:mm:ss"] string. *)
Record hms : Type := HMS { hour : Z; minute : Z; second : Z }.

Definition hms_ms (x : hms) : Z :=
  ((hour x * 60 + minute x) * 60 + second x) * 1000.

(** moment's overflow check: fields in range, hour 24 allowed only as
    24:00:00. *)
Definition hms_valid (x : hms) : bool :=
  (0 <=? hour x) && (hour x <=? 24) &&
  (0 <=? minute x) && (minute x <=? 59) &&
  (0 <=? second x) && (second x <=? 59) &&
  ((hour x <? 24) || ((minute x =? 0) && (second x =? 0))).

(** [tz(str, "HH:mm:ss", SHANGHAI_TZ)] evaluated at instant [t]: the
    fields the string does not give (year, month, day) are those of the
    current date in the zone, so the bound is the given time of day on the
    current Shanghai date. *)
Definition tz_parse (t : Z) (x : hms) : moment :=
  if hms_valid x then Some (start_of_day t + hms_ms x) else None.

(** Comparisons of moments; any comparison with an invalid moment is
    false. *)
Definition isAfter (a b : moment) : bool :=
  match a, b with Some x, Some y => y <? x | _, _ => false end.

Definition isSameOrAfter (a b : moment) : bool :=
  match a, b with Some x, Some y => y <=? x | _, _ => false end.

Definition isSameOrBefore (a b : moment) : bool :=
  match a, b with Some x, Some y => x <=? y | _, _ => false end.

(** [isTimeBetween(startTimeStr, endTimeStr)], the clock reading [t] made
    explicit. *)
Definition isTimeBetween (t : Z) (startTimeStr endTimeStr : hms) : bool :=
  let currentTime : moment := Some t in
  let startTime := tz_parse t startTimeStr in
  let endTime := tz_parse t endTimeStr in
  if isAfter startTime endTime then
    isSameOrAfter currentTime startTime || isSameOrBefore currentTime endTime
  else
    isSameOrAfter currentTime startTime && isSameOrBefore currentTime endTime.

End Clock.
Export Clock.

(* ===================================================================== *)
(** ** The reconciliation loop of [DynamicRate.changeRate] *)
(* ===================================================================== *)

Module Rate.

(** One entry of a node's [rate_config] in [config.yaml]. *)
Record rate_window : Type := RateWindow {
  start_time : hms;
  end_time : hms;
  rate : value
}.

(** One entry of [nodes] in [config.yaml]. *)
Record node_rule : Type := NodeRule {
  node_id : value;
  node_type : value;
  rate_config : list rate_window
}.

(** [existNode.id === configNode.id && existNode.type === configNode.type] *)
Definition same_node (existNode : object) (configNode : node_rule) : bool :=
  strict_eq (get existNode "id") (node_id configNode) &&
  strict_eq (get existNode "type") (node_type configNode).

(** [{ ...existNode, rate: rateConfig.rate }] *)
Definition with_rate (existNode : object) (rateConfig : rate_window) : object :=
  <["rate" := rate rateConfig]> existNode.

(** The three nested [for ... of] loops, innermost first.  Each takes the
    array [updateNodesData] built so far and returns it after the loop;
    [push] appends at the end. *)
Definition window_loop (now : Z) (existNode : object)
    (windows : list rate_window) (updateNodesData : list object) : list object :=
  fold_left
    (fun acc rateConfig =>
       if isTimeBetween now (start_time rateConfig) (end_time rateConfig)
       then acc ++ [with_rate existNode rateConfig]
       else acc)
    windows updateNodesData.

Definition exist_loop (now : Z) (configNode : node_rule)
    (existNodes : list object) (updateNodesData : list object) : list object :=
  fold_left
    (fun acc existNode =>
       if same_node existNode configNode
       then window_loop now existNode (rate_config configNode) acc
       else acc)
    existNodes updateNodesData.

Definition config_loop (now : Z) (nodes : list node_rule)
    (existNodes : list object) (updateNodesData : list object) : list object :=
  fold_left
    (fun acc configNode => exist_loop now configNode existNodes acc)
    nodes updateNodesData.

(** Lines 188-203: [updateNodesData] after the loops, starting from []. *)
Definition reconcile (now : Z) (nodes : list node_rule)
    (existNodes : list object) : list object :=
  config_loop now nodes existNodes [].

(** *** The same plan, said the way the specification says it

    For every rule, every remote node with the rule's id and type, and
    every window of the rule that is active, one record. *)
Definition plan (now : Z) (nodes : list node_rule)
    (existNodes : list object) : list object :=
  c ← nodes;
  e ← existNodes;
  if same_node e c then
    w ← rate_config c;
    if isTimeBetween now (start_time w) (end_time w)
    then [with_rate e w] else []
  else [].

(** Where each of those records comes from.

    Positions (i, j, k) of a configuration rule, a remote node and a
    window of that rule. *)
Definition triple : Type := nat * nat * nat.

(** Concatenation of [g i x] over the elements [x] of [l] at their
    positions [i], in list order. *)
Definition ibind {A B : Type} (g : nat -> A -> list B) (l : list A) : list B :=
  concat (imap g l).

(** All (rule, matching node, active window) positions: rules in declared
    order, then remote nodes in list order, then windows in declared
    order. *)
Definition active_triples (now : Z) (nodes : list node_rule)
    (existNodes : list object) : list triple :=
  ibind (fun i c =>
    ibind (fun j e =>
      if same_node e c then
        ibind (fun k w =>
          if isTimeBetween now (start_time w) (end_time w)
          then [(i, j, k)] else [])
          (rate_config c)
      else [])
      existNodes)
    nodes.

(** The record a triple stands for, if its positions exist. *)
Definition record_at (nodes : list node_rule) (existNodes : list object)
    (t : triple) : option object :=
  let '(i, j, k) := t in
  c ← nodes !! i;
  e ← existNodes !! j;
  w ← rate_config c !! k;
  Some (with_rate e w).

(** Lexicographic order on positions. *)
Definition triple_lt (a b : triple) : Prop :=
  let '(i, j, k) := a in
  let '(i', j', k') := b in
  (i < i' \/ (i = i' /\ (j < j' \/ (j = j' /\ k < k'))))%nat.

(** The rule of the worked example: 09:00-18:00 at rate 1, 18:00-09:00 at
    rate 2, for the vmess node 1. *)
Definition example_rule : node_rule :=
  NodeRule (VNum 1) (VStr "vmess")
    [RateWindow (HMS 9 0 0) (HMS 18 0 0) (VNum 1);
     RateWindow (HMS 18 0 0) (HMS 9 0 0) (VNum 2)].

Definition example_node : object :=
  <["id" := VNum 1]> (<["type" := VStr "vmess"]> (<["rate" := VNum (1 # 2)]>
    (<["name" := VStr "hk-01"]> (<["group_id" := VArr [VNum 1; VNum 3]]> ∅)))).

End Rate.
Export Rate.

(* ===================================================================== *)
(** ** The panel client, the run, and what they do to the outside world *)
(* ===================================================================== *)

Module Run.

(** What the script throws or has thrown at it. *)
Inductive error : Type :=
  | RequestFailed (message : string)   (* axios rejects: network, timeout, status *)
  | NotAdmin                           (* line 80 *)
  | Unauthorized                       (* lines 95 and 117 *)
  | MissingType (id : value)           (* line 129 *)
  | MissingKey (key : string)          (* line 171 *)
  | ConfigUnreadable (message : string) (* readFileSync or load throws *)
  | TypeError.                         (* property of undefined, non-callable *)

Inductive level : Type := Info | Error.

(** The messages handed to [log], with the values interpolated in them. *)
Inductive message : Type :=
  | LoginOk
  | LoginFailed (e : error)
  | NodesFetched
  | NodesFailed (e : error)
  | SaveOk (type id rate : value)
  | SaveFailed (type id : value) (e : error)
  | NothingToUpdate
  | ChangeRateFailed (e : error)
  | ConfigFailed (e : error)
  | ScriptFailed (e : error).

(** Everything observable from outside, in order of occurrence. *)
Inductive event : Type :=
  | Log (lvl : level) (msg : message)
  | PostLogin (email password : value)
  | GetNodes (authorization : value)
  | PostSave (authorization : value) (postData : object).

(** [config.yaml] once parsed.  [nodes] is [None] when the key is absent or
    falsy. *)
Record config : Type := Config {
  host : value;
  admin_path : value;
  admin_account : value;
  admin_password : value;
  nodes : option (list node_rule)
}.

(** The outside world of one run: the clock, the configuration file and the
    panel's answers.  A request either rejects with a message or resolves;
    the answer to a save may depend on everything that happened before.
    The clock is read once: a run is short against the one-second grain of
    the windows.  The node list is an array of objects, as the panel sends
    it, and [rate_config] is an array of windows. *)
Record env : Type := Env {
  now : Z;
  config_file : string + config;
  login_reply : string + value;        (* [response.data.data] *)
  getNodes_reply : string + list object; (* [response.data.data] *)
  save_reply : list event -> object -> option string  (* [None]: resolved *)
}.

(** The mutable fields of [XBClient] and the trace of events so far. *)
Record state : Type := State {
  authData : value;
  authorization : value;   (* [this.headers.authorization] *)
  trace : list event
}.

Inductive outcome (A : Type) : Type :=
  | Ok (a : A)
  | Throw (e : error).
Arguments Ok {A} a.
Arguments Throw {A} e.

(** Computations that read and write the state and may throw. *)
Definition M (A : Type) : Type := state -> outcome A * state.

#[global] Instance M_ret : MRet M := fun A a s => (Ok a, s).

#[global] Instance M_bind : MBind M := fun A B f m s =>
  match m s with
  | (Ok a, s') => f a s'
  | (Throw e, s') => (Throw e, s')
  end.

Definition throw {A : Type} (e : error) : M A := fun s => (Throw e, s).

Definition lift {A : Type} (o : outcome A) : M A := fun s => (o, s).

(** [try { body } catch (error) { handler }] *)
Definition try_catch {A : Type} (body : M A) (handler : error -> M A) : M A :=
  fun s =>
    match body s with
    | (Ok a, s') => (Ok a, s')
    | (Throw e, s') => handler e s'
    end.

Definition emit (ev : event) : M unit := fun s =>
  (Ok tt, State (authData s) (authorization s) (trace s ++ [ev])).

Definition log (msg : message) (lvl : level) : M unit := emit (Log lvl msg).

Definition read {A : Type} (f : state -> A) : M A := fun s => (Ok (f s), s).

Definition set_authData (v : value) : M unit := fun s =>
  (Ok tt, State v (authorization s) (trace s)).

Definition set_authorization (v : value) : M unit := fun s =>
  (Ok tt, State (authData s) v (trace s)).

(** [v.key] for a value [v] that need not be an object: reading a property
    of [undefined] or [null] throws; numbers, strings, booleans and arrays
    have none of the keys the script asks for. *)
Definition prop (v : value) (key : string) : M value :=
  match v with
  | VUndefined | VNull => throw TypeError
  | VObj o => mret (get o key)
  | _ => mret VUndefined
  end.

(** The state of a freshly constructed [XBClient] (lines 45 and 54). *)
Definition fresh : state := State VNull (VStr "") [].

Section WithEnv.

Variable E : env.

(** [axios.post(login api, {email, password})] *)
Definition post_login (email password : value) : M value :=
  emit (PostLogin email password);;
  match login_reply E with
  | inl msg => throw (RequestFailed msg)
  | inr data => mret data
  end.

(** [axios.get(getNodes api, {headers})] *)
Definition get_nodes : M (list object) :=
  hdr ← read authorization;
  emit (GetNodes hdr);;
  match getNodes_reply E with
  | inl msg => throw (RequestFailed msg)
  | inr data => mret data
  end.

(** [axios.post(save api, postData, {headers})] *)
Definition post_save (postData : object) : M unit :=
  hdr ← read authorization;
  before ← read trace;
  emit (PostSave hdr postData);;
  match save_reply E before postData with
  | Some msg => throw (RequestFailed msg)
  | None => mret tt
  end.

(** [XBClient.login] *)
Definition login (adminAccount adminPassword : value) : M unit :=
  try_catch
    (authData ← post_login adminAccount adminPassword;
     is_admin ← prop authData "is_admin";
     (if negb (strict_eq is_admin (VNum 1)) then throw NotAdmin else mret tt);;
     auth_data ← prop authData "auth_data";
     set_authData auth_data;;
     log LoginOk Info)
    (fun error =>
       log (LoginFailed error) Error;;
       throw error).

(** [XBClient.getNodes] *)
Definition getNodes : M (list object) :=
  auth ← read authData;
  if negb (truthy auth) then throw Unauthorized else
  set_authorization auth;;
  try_catch
    (data ← get_nodes;
     log NodesFetched Info;;
     mret data)
    (fun error =>
       log (NodesFailed error) Error;;
       throw error).

(** Lines 121-127: the posted copy of a record, its [group_id] array
    rewritten as pairs.  [map] exists on arrays only, so a truthy
    [group_id] of any other shape makes the call throw. *)
Definition group_pair (index : nat) (id : value) : value :=
  VArr [VStr ("group_id[" +:+ pretty index +:+ "]"); id].

Definition make_postData (nodeData : object) : outcome object :=
  let postData := nodeData in
  if truthy (get nodeData "group_id") then
    match get nodeData "group_id" with
    | VArr ids => Ok (<["group_id" := VArr (imap group_pair ids)]> postData)
    | _ => Throw TypeError
    end
  else Ok postData.

(** One iteration of the loop of [batchChange] (lines 121-137). *)
Definition batchChange_step (nodeData : object) : M unit :=
  postData ← lift (make_postData nodeData);
  if negb (truthy (get postData "type"))
  then throw (MissingType (get postData "id"))
  else
    try_catch
      (post_save postData;;
       log (SaveOk (get postData "type") (get postData "id")
                   (get postData "rate")) Info)
      (fun error =>
         log (SaveFailed (get postData "type") (get postData "id") error) Error).

Fixpoint batchChange_loop (updateNodesData : list object) : M unit :=
  match updateNodesData with
  | [] => mret tt
  | nodeData :: rest =>
      batchChange_step nodeData;;
      batchChange_loop rest
  end.

(** [XBClient.batchChange] *)
Definition batchChange (updateNodesData : list object) : M unit :=
  auth ← read authData;
  if negb (truthy auth) then throw Unauthorized else
  set_authorization auth;;
  batchChange_loop updateNodesData.

(** [DynamicRate.loadConfig] *)
Definition check_key (v : value) (key : string) : M unit :=
  if negb (truthy v) then throw (MissingKey key) else mret tt.

Definition loadConfig : M config :=
  try_catch
    (match config_file E with
     | inl msg => throw (ConfigUnreadable msg)
     | inr config =>
         check_key (host config) "host";;
         check_key (admin_path config) "admin_path";;
         check_key (admin_account config) "admin_account";;
         check_key (admin_password config) "admin_password";;
         match nodes config with
         | None => throw (MissingKey "nodes")
         | Some _ => mret config
         end
     end)
    (fun error =>
       log (ConfigFailed error) Error;;
       throw error).

(** [DynamicRate.changeRate] *)
Definition changeRate (config : config) : M unit :=
  try_catch
    (login (admin_account config) (admin_password config);;
     existNodes ← getNodes;
     let updateNodesData :=
       reconcile (now E) (default [] (nodes config)) existNodes in
     if (0 <? length updateNodesData)%nat
     then batchChange updateNodesData
     else log NothingToUpdate Info)
    (fun error => log (ChangeRateFailed error) Error).

(** The entry point (lines 216-223). *)
Definition main : M unit :=
  try_catch
    (config ← loadConfig;
     changeRate config)
    (fun error => log (ScriptFailed error) Error).

End WithEnv.

(** How the process ends: the entry point is an async function whose
    promise nobody awaits, and the script never sets an exit code, so the
    only failure signal it could give is a rejection of that promise. *)
Definition exit_code (E : env) : Z :=
  match fst (main E fresh) with
  | Ok _ => 0
  | Throw _ => 1
  end.

(** The payloads of the save requests in a trace, in order. *)
Definition posted (tr : list event) : list object :=
  omap (fun ev => match ev with PostSave _ p => Some p | _ => None end) tr.

(** A record that [batchChange] gets as far as posting: its [group_id], if
    truthy, is an array, and its [type] is truthy. *)
Definition sendable (nodeData : object) : bool :=
  match make_postData nodeData with
  | Ok postData => truthy (get postData "type")
  | Throw _ => false
  end.

(** A record whose [group_id] does not make [map] fail. *)
Definition encodable (nodeData : object) : bool :=
  match make_postData nodeData with
  | Ok _ => true
  | Throw _ => false
  end.

(** The payload posted for a record (the record itself when
    [make_postData] throws, in which case nothing is posted). *)
Definition payload (nodeData : object) : object :=
  match make_postData nodeData with
  | Ok postData => postData
  | Throw _ => nodeData
  end.

(** The log line that follows a save request, by the panel's answer. *)
Definition save_log (reply : option string) (postData : object) : event :=
  match reply with
  | None =>
      Log Info (SaveOk (get postData "type") (get postData "id")
                       (get postData "rate"))
  | Some msg =>
      Log Error (SaveFailed (get postData "type") (get postData "id")
                            (RequestFailed msg))
  end.

(** The state after one iteration of the loop on a record that is sent. *)
Definition after_save (E : env) (nodeData : object) (s : state) : state :=
  State (authData s) (authorization s)
    (trace s ++
       [PostSave (authorization s) (payload nodeData);
        save_log (save_reply E (trace s) (payload nodeData)) (payload nodeData)]).

(** Events the loop of [batchChange] may produce under header [hdr]. *)
Definition from_loop (hdr : value) (ev : event) : Prop :=
  match ev with
  | Log _ _ => True
  | PostSave h _ => h = hdr
  | _ => False
  end.

(** Events that are not requests made under an authorization header. *)
Definition tokenless (ev : event) : Prop :=
  match ev with
  | Log _ _ | PostLogin _ _ => True
  | _ => False
  end.

(** Events whose authorization header, if they have one, is [tok]. *)
Definition carries (tok : value) (ev : event) : Prop :=
  match ev with
  | Log _ _ | PostLogin _ _ => True
  | GetNodes h | PostSave h _ => h = tok
  end.

(** *** Sample runs *)

Definition sample_config : config :=
  Config (VStr "panel.example.com") (VStr "manage") (VStr "root@example.com")
    (VStr "hunter2") (Some [example_rule]).

Definition sample_token : value := VStr "Bearer 0123".

(** A panel that accepts the login and every save; it is 20:00:00 in
    Shanghai. *)
Definition panel_up : env :=
  Env 43200000 (inr sample_config)
    (inr (VObj (<["is_admin" := VNum 1]> (<["auth_data" := sample_token]> ∅))))
    (inr [example_node])
    (fun _ _ => None).

(** The same, but the login request times out. *)
Definition login_down : env :=
  Env 43200000 (inr sample_config)
    (inl "timeout of 10000ms exceeded")
    (inr [example_node])
    (fun _ _ => None).

(** The same as [panel_up], but every save is refused. *)
Definition saves_down : env :=
  Env 43200000 (inr sample_config)
    (inr (VObj (<["is_admin" := VNum 1]> (<["auth_data" := sample_token]> ∅))))
    (inr [example_node])
    (fun _ _ => Some "Request failed with status code 500").

(** The same as [panel_up], but the node list cannot be fetched. *)
Definition fetch_down : env :=
  Env 43200000 (inr sample_config)
    (inr (VObj (<["is_admin" := VNum 1]> (<["auth_data" := sample_token]> ∅))))
    (inl "Network Error")
    (fun _ _ => None).

(** A configuration file without [nodes]. *)
Definition config_incomplete : env :=
  Env 43200000
    (inr (Config (VStr "panel.example.com") (VStr "manage")
            (VStr "root@example.com") (VStr "hunter2") None))
    (inr (VObj (<["is_admin" := VNum 1]> (<["auth_data" := sample_token]> ∅))))
    (inr [example_node])
    (fun _ _ => None).

(** A client after a successful login. *)
Definition logged_in : state := State sample_token (VStr "") [].

Definition typeless_record : object :=
  <["id" := VNum 5]> (<["rate" := VNum 2]> ∅).

Definition good_record : object := <["rate" := VNum 2]> example_node.

Definition plain_record : object :=
  <["id" := VNum 2]> (<["type" := VStr "trojan"]> (<["rate" := VNum 1]> ∅)).

(** *** Observers used to state what a run does *)

(** The requests sent to the panel in a trace: everything but log lines. *)
Definition is_request (ev : event) : bool :=
  match ev with Log _ _ => false | _ => true end.

Definition requests (tr : list event) : list event :=
  List.filter is_request tr.

(** The array [requiredKeys] of [loadConfig] with, for each key, whether
    the configuration passes [config[key]] as truthy. *)
Definition required_values (c : config) : list (string * bool) :=
  [("host", truthy (host c));
   ("admin_path", truthy (admin_path c));
   ("admin_account", truthy (admin_account c));
   ("admin_password", truthy (admin_password c));
   ("nodes", match nodes c with Some _ => true | None => false end)].

(** The first required key that is missing or falsy, if any. *)
Definition first_missing (c : config) : option string :=
  fst <$> List.find (fun kv => negb (snd kv)) (required_values c).

(** What [batchChange] throws at a record it does not send. *)
Definition rejection (nodeData : object) : error :=
  match make_postData nodeData with
  | Ok postData => MissingType (get postData "id")
  | Throw e => e
  end.

(** The state in which a request of [login] leaves the client when it
    fails with [e]. *)
Definition login_failed (a p : value) (e : error) (s : state) : outcome unit * state :=
  (Throw e,
   State (authData s) (authorization s)
     (trace s ++ [PostLogin a p; Log Error (LoginFailed e)])).

(** *** More sample runs *)

(** The panel accepts the login but its answer holds no token. *)
Definition token_missing : env :=
  Env 43200000 (inr sample_config)
    (inr (VObj (<["is_admin" := VNum 1]> ∅)))
    (inr [example_node])
    (fun _ _ => None).

(** The panel knows no node of the configuration. *)
Definition panel_idle : env :=
  Env 43200000 (inr sample_config)
    (inr (VObj (<["is_admin" := VNum 1]> (<["auth_data" := sample_token]> ∅))))
    (inr [plain_record])
    (fun _ _ => None).

(** The account is not an administrator. *)
Definition not_admin : env :=
  Env 43200000 (inr sample_config)
    (inr (VObj (<["is_admin" := VNum 0]> (<["auth_data" := sample_token]> ∅))))
    (inr [example_node])
    (fun _ _ => None).

(** A record whose [group_id] is a string. *)
Definition odd_group_record : object :=
  <["group_id" := VStr "1,3"]> plain_record.

(** A client whose header still holds an older token. *)
Definition stale_header : state := State sample_token (VStr "Bearer old") [].

End Run.
Export Run.

(* ===================================================================== *)
(** ** Time windows *)
(* ===================================================================== *)

Section TimeFacts.

Lemma time_of_day_range t : 0 <= time_of_day t < MS_PER_DAY.
Proof. unfold time_of_day, MS_PER_DAY. apply Z.mod_pos_bound. lia. Qed.

(** With both bounds valid, [isTimeBetween] is a comparison of offsets from
    local midnight: the date cancels. *)
Lemma isTimeBetween_offsets t s e :
  hms_valid s = true -> hms_valid e = true ->
  isTimeBetween t s e =
    if hms_ms e <? hms_ms s
    then (hms_ms s <=? time_of_day t) || (time_of_day t <=? hms_ms e)
    else (hms_ms s <=? time_of_day t) && (time_of_day t <=? hms_ms e).
Proof.
  intros Hs He. unfold isTimeBetween, tz_parse. rewrite Hs, He. cbn.
  unfold start_of_day. set (d := time_of_day t).
  assert (Hlt : (t - d + hms_ms e <? t - d + hms_ms s) = (hms_ms e <? hms_ms s)).
  { destruct (Z.ltb_spec (hms_ms e) (hms_ms s)); [apply Z.ltb_lt | apply Z.ltb_ge]; lia. }
  assert (Hge : (t - d + hms_ms s <=? t) = (hms_ms s <=? d)).
  { destruct (Z.leb_spec (hms_ms s) d); [apply Z.leb_le | apply Z.leb_gt]; lia. }
  assert (Hle : (t <=? t - d + hms_ms e) = (d <=? hms_ms e)).
  { destruct (Z.leb_spec d (hms_ms e)); [apply Z.leb_le | apply Z.leb_gt]; lia. }
  now rewrite Hlt, Hge, Hle.
Qed.

(** An unparsable bound makes the window inactive at all times. *)
Lemma isTimeBetween_invalid t s e :
  hms_valid s = false \/ hms_valid e = false -> isTimeBetween t s e = false.
Proof.
  unfold isTimeBetween, tz_parse.
  intros [H | H]; rewrite H.
  - destruct (hms_valid e); reflexivity.
  - destruct (hms_valid s); cbn; [apply andb_false_r | reflexivity].
Qed.

(** The function is the window test on the time of day, in both
    branches. *)
Lemma isTimeBetween_window t s e :
  hms_valid s = true -> hms_valid e = true ->
  isTimeBetween t s e = true <->
  if hms_ms e <? hms_ms s
  then hms_ms s <= time_of_day t \/ time_of_day t <= hms_ms e
  else hms_ms s <= time_of_day t <= hms_ms e.
Proof.
  intros Hs He. rewrite (isTimeBetween_offsets t s e Hs He).
  destruct (hms_ms e <? hms_ms s).
  - now rewrite orb_true_iff, !Z.leb_le.
  - now rewrite andb_true_iff, !Z.leb_le.
Qed.

End TimeFacts.

(** C2. For a window that does not cross midnight (start <= end, both
    well-formed times of day), [isTimeBetween] holds exactly when
    start <= now <= end, both ends included; so it holds at now = start and
    at now = end, and for start = end it holds only at that instant. *)
Theorem isTimeBetween_normal_window (t : Z) (s e : hms) :
  hms_valid s = true -> hms_valid e = true -> hms_ms s <= hms_ms e ->
  (isTimeBetween t s e = true <-> hms_ms s <= time_of_day t <= hms_ms e) /\
  (time_of_day t = hms_ms s -> isTimeBetween t s e = true) /\
  (time_of_day t = hms_ms e -> isTimeBetween t s e = true) /\
  (hms_ms s = hms_ms e ->
     (isTimeBetween t s e = true <-> time_of_day t = hms_ms s)).
Proof.
  intros Hs He Hse. rewrite (isTimeBetween_offsets t s e Hs He).
  destruct (Z.ltb_spec (hms_ms e) (hms_ms s)) as [Hlt | _]; [lia |].
  rewrite andb_true_iff, !Z.leb_le. repeat split; lia.
Qed.

Lemma isTimeBetween_normal_window_witness :
  (isTimeBetween 1704135600000 (HMS 1 0 0) (HMS 6 0 0) = true <->
     hms_ms (HMS 1 0 0) <= time_of_day 1704135600000 <= hms_ms (HMS 6 0 0)) /\
  isTimeBetween 3600000 (HMS 9 0 0) (HMS 18 0 0) = true.
Proof.
  pose proof (isTimeBetween_normal_window 1704135600000 (HMS 1 0 0) (HMS 6 0 0)
                eq_refl eq_refl ltac:(vm_compute; discriminate)) as (H1 & _).
  pose proof (isTimeBetween_normal_window 3600000 (HMS 9 0 0) (HMS 18 0 0)
                eq_refl eq_refl ltac:(vm_compute; discriminate)) as (_ & H2 & _).
  split; [exact H1 | apply H2; reflexivity].
Defined.

(** C3. For a window that crosses midnight (start > end), [isTimeBetween]
    holds exactly when now >= start or now <= end, both inclusive; the
    window 22:00:00-02:00:00 is active at 23:59:59, 00:00:01 and 02:00:00
    and inactive at 12:00:00. *)
Theorem isTimeBetween_wrap_window (t : Z) (s e : hms) :
  hms_valid s = true -> hms_valid e = true -> hms_ms s > hms_ms e ->
  (isTimeBetween t s e = true <->
     hms_ms s <= time_of_day t \/ time_of_day t <= hms_ms e) /\
  (forall t',
     (time_of_day t' = hms_ms (HMS 23 59 59) ->
        isTimeBetween t' (HMS 22 0 0) (HMS 2 0 0) = true) /\
     (time_of_day t' = hms_ms (HMS 0 0 1) ->
        isTimeBetween t' (HMS 22 0 0) (HMS 2 0 0) = true) /\
     (time_of_day t' = hms_ms (HMS 2 0 0) ->
        isTimeBetween t' (HMS 22 0 0) (HMS 2 0 0) = true) /\
     (time_of_day t' = hms_ms (HMS 12 0 0) ->
        isTimeBetween t' (HMS 22 0 0) (HMS 2 0 0) = false)).
Proof.
  intros Hs He Hse. split.
  - rewrite (isTimeBetween_offsets t s e Hs He).
    destruct (Z.ltb_spec (hms_ms e) (hms_ms s)) as [_ | Hge]; [| lia].
    rewrite orb_true_iff, !Z.leb_le. reflexivity.
  - intros t'.
    rewrite (isTimeBetween_offsets t' (HMS 22 0 0) (HMS 2 0 0) eq_refl eq_refl).
    repeat split; intros ->; reflexivity.
Qed.

Lemma isTimeBetween_wrap_window_witness :
  isTimeBetween 57599000 (HMS 22 0 0) (HMS 2 0 0) = true /\
  isTimeBetween 14400000 (HMS 22 0 0) (HMS 2 0 0) = false /\
  isTimeBetween 1704142800000 (HMS 22 0 0) (HMS 2 0 0) = false.
Proof.
  pose proof (isTimeBetween_wrap_window 57599000 (HMS 22 0 0) (HMS 2 0 0)
                eq_refl eq_refl ltac:(vm_compute; reflexivity)) as [_ H].
  pose proof (isTimeBetween_wrap_window 1704142800000 (HMS 22 0 0) (HMS 2 0 0)
                eq_refl eq_refl ltac:(vm_compute; reflexivity)) as [H5 _].
  split; [| split].
  - destruct (H 57599000) as (H1 & _). apply H1. reflexivity.
  - destruct (H 14400000) as (_ & _ & _ & H4). apply H4. reflexivity.
  - apply not_true_is_false. intros Hact. apply H5 in Hact.
    vm_compute in Hact. destruct Hact as [Hact | Hact]; now apply Hact.
Defined.

(* ===================================================================== *)
(** ** Reconciliation *)
(* ===================================================================== *)

Section LoopFacts.

Context {A B : Type}.

(** A loop whose body only pushes appends the pushes of every iteration. *)
Lemma fold_left_push (f : A -> list B) (l : list A) (acc : list B) :
  fold_left (fun acc x => acc ++ f x) l acc = acc ++ (l ≫= f).
Proof.
  revert acc. induction l as [| x l IH]; intros acc.
  - cbn. now rewrite app_nil_r.
  - rewrite bind_cons. cbn [fold_left]. rewrite IH. now rewrite <- app_assoc.
Qed.

Lemma fold_left_ext_in (f g : B -> A -> B) (l : list A) (acc : B) :
  (forall acc x, x ∈ l -> f acc x = g acc x) ->
  fold_left f l acc = fold_left g l acc.
Proof.
  revert acc. induction l as [| x l IH]; intros acc H; cbn; [reflexivity |].
  rewrite H by apply list_elem_of_here.
  apply IH. intros acc' y Hy. apply H. now apply list_elem_of_further.
Qed.

End LoopFacts.

Section IbindFacts.

Context {A T : Type}.

Lemma ibind_nil (g : nat -> A -> list T) : ibind g [] = [].
Proof. reflexivity. Qed.

Lemma ibind_cons (g : nat -> A -> list T) (x : A) (l : list A) :
  ibind g (x :: l) = g 0%nat x ++ ibind (fun i => g (S i)) l.
Proof. reflexivity. Qed.

Lemma elem_of_ibind (g : nat -> A -> list T) (l : list A) (t : T) :
  t ∈ ibind g l <-> exists i x, l !! i = Some x /\ t ∈ g i x.
Proof.
  revert g. induction l as [| x l IH]; intros g.
  - rewrite ibind_nil. split; [intros H; inversion H |].
    intros (i & y & Hy & _). now rewrite lookup_nil in Hy.
  - rewrite ibind_cons, elem_of_app, IH. split.
    + intros [H | (i & y & Hy & H)].
      * exists 0%nat, x. split; [reflexivity | exact H].
      * exists (S i), y. split; [exact Hy | exact H].
    + intros ([| i] & y & Hy & H).
      * left. cbn in Hy. now inversion Hy; subst.
      * right. exists i, y. split; [exact Hy | exact H].
Qed.

Lemma Forall2_bind_ibind {C : Type} (R : C -> T -> Prop)
    (f : A -> list C) (g : nat -> A -> list T) (l : list A) :
  (forall i x, l !! i = Some x -> Forall2 R (f x) (g i x)) ->
  Forall2 R (l ≫= f) (ibind g l).
Proof.
  revert g. induction l as [| x l IH]; intros g H.
  - constructor.
  - rewrite bind_cons, ibind_cons. apply Forall2_app.
    + apply (H 0%nat). reflexivity.
    + apply IH. intros i y Hy. apply (H (S i)). exact Hy.
Qed.

(** Blocks that are sorted, laid out in an order that is respected across
    blocks, form a sorted list. *)
Lemma StronglySorted_ibind (R : relation T) (g : nat -> A -> list T) (l : list A) :
  (forall i x, l !! i = Some x -> StronglySorted R (g i x)) ->
  (forall i i' x x' a b,
     (i < i')%nat -> l !! i = Some x -> l !! i' = Some x' ->
     a ∈ g i x -> b ∈ g i' x' -> R a b) ->
  StronglySorted R (ibind g l).
Proof.
  revert g. induction l as [| x l IH]; intros g Hin Hacross.
  - constructor.
  - rewrite ibind_cons. apply StronglySorted_app_2.
    + intros a b Ha Hb. apply elem_of_ibind in Hb as (i & y & Hy & Hb).
      apply (Hacross 0%nat (S i) x y); [lia | reflexivity | exact Hy | exact Ha | exact Hb].
    + apply (Hin 0%nat). reflexivity.
    + apply IH.
      * intros i y Hy. apply (Hin (S i)). exact Hy.
      * intros i i' y y' a b Hlt Hy Hy'.
        apply (Hacross (S i) (S i')); [lia | exact Hy | exact Hy'].
Qed.

End IbindFacts.

Section ReconcileFacts.

Variable now : Z.

Local Abbreviation active w := (isTimeBetween now (start_time w) (end_time w)).

Lemma window_loop_push e ws acc :
  window_loop now e ws acc =
  acc ++ (ws ≫= fun w => if active w then [with_rate e w] else []).
Proof.
  unfold window_loop. rewrite <- fold_left_push.
  apply fold_left_ext_in. intros acc' w _.
  destruct (isTimeBetween _ _ _); [reflexivity | now rewrite app_nil_r].
Qed.

Lemma exist_loop_push c es acc :
  exist_loop now c es acc =
  acc ++ (es ≫= fun e =>
            if same_node e c
            then rate_config c ≫= fun w => if active w then [with_rate e w] else []
            else []).
Proof.
  unfold exist_loop. rewrite <- fold_left_push.
  apply fold_left_ext_in. intros acc' e _.
  destruct (same_node e c); [apply window_loop_push | now rewrite app_nil_r].
Qed.

Lemma config_loop_push cs es acc :
  config_loop now cs es acc = acc ++ plan now cs es.
Proof.
  unfold config_loop, plan. rewrite <- fold_left_push.
  apply fold_left_ext_in. intros acc' c _. apply exist_loop_push.
Qed.

(** The loops compute the plan. *)
Lemma reconcile_plan cs es : reconcile now cs es = plan now cs es.
Proof. unfold reconcile. now rewrite config_loop_push. Qed.

Lemma elem_of_plan cs es r :
  r ∈ plan now cs es <->
  exists c e w, c ∈ cs /\ e ∈ es /\ w ∈ rate_config c /\
    same_node e c = true /\ active w = true /\ r = with_rate e w.
Proof.
  unfold plan. rewrite list_elem_of_bind. split.
  - intros (c & Hr & Hc). apply list_elem_of_bind in Hr as (e & Hr & He).
    destruct (same_node e c) eqn:Hsame; [| inversion Hr].
    apply list_elem_of_bind in Hr as (w & Hr & Hw).
    destruct (isTimeBetween now _ _) eqn:Hact; [| inversion Hr].
    apply list_elem_of_singleton in Hr. exists c, e, w. auto 10.
  - intros (c & e & w & Hc & He & Hw & Hsame & Hact & ->).
    exists c. split; [| exact Hc]. apply list_elem_of_bind.
    exists e. split; [| exact He]. rewrite Hsame. apply list_elem_of_bind.
    exists w. split; [| exact Hw]. rewrite Hact.
    now apply list_elem_of_singleton.
Qed.

Lemma elem_of_active_triples cs es i j k :
  (i, j, k) ∈ active_triples now cs es <->
  exists c e w, cs !! i = Some c /\ es !! j = Some e /\
    rate_config c !! k = Some w /\ same_node e c = true /\ active w = true.
Proof.
  unfold active_triples. rewrite elem_of_ibind. split.
  - intros (i' & c & Hc & H). apply elem_of_ibind in H as (j' & e & He & H).
    destruct (same_node e c) eqn:Hsame; [| inversion H].
    apply elem_of_ibind in H as (k' & w & Hw & H).
    destruct (isTimeBetween now _ _) eqn:Hact; [| inversion H].
    apply list_elem_of_singleton in H. inversion H; subst.
    exists c, e, w. auto.
  - intros (c & e & w & Hc & He & Hw & Hsame & Hact).
    exists i, c. split; [exact Hc |]. apply elem_of_ibind.
    exists j, e. split; [exact He |]. rewrite Hsame. apply elem_of_ibind.
    exists k, w. split; [exact Hw |]. rewrite Hact.
    now apply list_elem_of_singleton.
Qed.

Lemma plan_records_at cs es :
  Forall2 (fun r t => record_at cs es t = Some r)
    (plan now cs es) (active_triples now cs es).
Proof.
  unfold plan, active_triples.
  apply Forall2_bind_ibind. intros i c Hc.
  apply Forall2_bind_ibind. intros j e He.
  destruct (same_node e c); [| constructor].
  apply Forall2_bind_ibind. intros k w Hw.
  destruct (isTimeBetween now _ _); [| constructor].
  constructor; [| constructor].
  cbn. rewrite Hc. cbn. rewrite He. cbn. rewrite Hw. reflexivity.
Qed.

Lemma active_triples_sorted cs es :
  StronglySorted triple_lt (active_triples now cs es).
Proof.
  unfold active_triples. apply StronglySorted_ibind.
  - intros i c _. apply StronglySorted_ibind.
    + intros j e _. destruct (same_node e c); [| constructor].
      apply StronglySorted_ibind.
      * intros k w _. destruct (isTimeBetween now _ _); repeat constructor.
      * intros k k' w w' a b Hlt _ _ Ha Hb.
        destruct (isTimeBetween now (start_time w) _); [| inversion Ha].
        destruct (isTimeBetween now (start_time w') _); [| inversion Hb].
        apply list_elem_of_singleton in Ha, Hb. subst. cbn. lia.
    + intros j j' e e' a b Hlt _ _ Ha Hb.
      destruct (same_node e c); [| inversion Ha].
      destruct (same_node e' c); [| inversion Hb].
      apply elem_of_ibind in Ha as (k & w & _ & Ha).
      apply elem_of_ibind in Hb as (k' & w' & _ & Hb).
      destruct (isTimeBetween now (start_time w) _); [| inversion Ha].
      destruct (isTimeBetween now (start_time w') _); [| inversion Hb].
      apply list_elem_of_singleton in Ha, Hb. subst. cbn. lia.
  - intros i i' c c' a b Hlt _ _ Ha Hb.
    apply elem_of_ibind in Ha as (j & e & _ & Ha).
    apply elem_of_ibind in Hb as (j' & e' & _ & Hb).
    destruct (same_node e c); [| inversion Ha].
    destruct (same_node e' c'); [| inversion Hb].
    apply elem_of_ibind in Ha as (k & w & _ & Ha).
    apply elem_of_ibind in Hb as (k' & w' & _ & Hb).
    destruct (isTimeBetween now (start_time w) _); [| inversion Ha].
    destruct (isTimeBetween now (start_time w') _); [| inversion Hb].
    apply list_elem_of_singleton in Ha, Hb. subst. cbn. lia.
Qed.

End ReconcileFacts.

Section PlanFacts.

Variable now : Z.

(** A rule that matches no remote node, or none of whose windows is
    active, adds nothing to the plan. *)
Lemma plan_rule_silent c es :
  (forall e, e ∈ es -> same_node e c = false) \/
  (forall w, w ∈ rate_config c ->
     isTimeBetween now (start_time w) (end_time w) = false) ->
  plan now [c] es = [].
Proof.
  intros H. destruct (plan now [c] es) as [| r rs] eqn:Hp; [reflexivity |].
  assert (Hr : r ∈ plan now [c] es) by (rewrite Hp; apply list_elem_of_here).
  apply elem_of_plan in Hr as (c' & e & w & Hc & He & Hw & Hsame & Hact & _).
  apply list_elem_of_singleton in Hc. subst c'.
  destruct H as [H | H].
  - rewrite (H e He) in Hsame. discriminate.
  - rewrite (H w Hw) in Hact. discriminate.
Qed.

Lemma plan_app cs1 cs2 es :
  plan now (cs1 ++ cs2) es = plan now cs1 es ++ plan now cs2 es.
Proof. unfold plan. apply bind_app. Qed.

Lemma plan_drop_silent cs1 c cs2 es :
  plan now [c] es = [] ->
  plan now (cs1 ++ c :: cs2) es = plan now (cs1 ++ cs2) es.
Proof.
  intros H. change (c :: cs2) with ([c] ++ cs2).
  now rewrite !plan_app, H.
Qed.

End PlanFacts.

(** The activity of a window depends on the instant only through its time
    of day. *)
Lemma isTimeBetween_time_of_day t1 t2 s e :
  time_of_day t1 = time_of_day t2 ->
  isTimeBetween t1 s e = isTimeBetween t2 s e.
Proof.
  intros H.
  destruct (hms_valid s) eqn:Hs; [| rewrite !isTimeBetween_invalid; auto].
  destruct (hms_valid e) eqn:He; [| rewrite !isTimeBetween_invalid; auto].
  rewrite !isTimeBetween_offsets by assumption. now rewrite H.
Qed.

(** C4. The loops of [changeRate] emit exactly one record per triple
    (rule, remote node with the rule's id and type, window of the rule
    active now): the records are, position by position, those of the list
    of such triples, which holds each such triple and is strictly
    increasing in (rule position, node position, window position).  A rule
    that matches no remote node, and a rule none of whose windows is
    active, contribute no record. *)
Theorem reconcile_one_record_per_active_triple
    (now : Z) (nodes : list node_rule) (existNodes : list object) :
  Forall2 (fun r t => record_at nodes existNodes t = Some r)
    (reconcile now nodes existNodes) (active_triples now nodes existNodes) /\
  StronglySorted triple_lt (active_triples now nodes existNodes) /\
  (forall i j k,
     (i, j, k) ∈ active_triples now nodes existNodes <->
     exists c e w,
       nodes !! i = Some c /\ existNodes !! j = Some e /\
       rate_config c !! k = Some w /\ same_node e c = true /\
       isTimeBetween now (start_time w) (end_time w) = true) /\
  (forall before c after,
     nodes = before ++ c :: after ->
     (forall e, e ∈ existNodes -> same_node e c = false) ->
     reconcile now nodes existNodes = reconcile now (before ++ after) existNodes) /\
  (forall before c after,
     nodes = before ++ c :: after ->
     (forall w, w ∈ rate_config c ->
        isTimeBetween now (start_time w) (end_time w) = false) ->
     reconcile now nodes existNodes = reconcile now (before ++ after) existNodes).
Proof.
  repeat split.
  - rewrite reconcile_plan. apply plan_records_at.
  - apply active_triples_sorted.
  - apply elem_of_active_triples.
  - apply elem_of_active_triples.
  - intros before c after -> H. rewrite !reconcile_plan.
    apply plan_drop_silent, plan_rule_silent. now left.
  - intros before c after -> H. rewrite !reconcile_plan.
    apply plan_drop_silent, plan_rule_silent. now right.
Qed.

Lemma reconcile_one_record_per_active_triple_witness :
  reconcile 43200000 [NodeRule (VNum 7) (VStr "trojan") []; example_rule]
    [example_node] =
  reconcile 43200000 [example_rule] [example_node] /\
  active_triples 43200000 [example_rule] [example_node] = [(0, 0, 1)]%nat.
Proof.
  split.
  - pose proof (reconcile_one_record_per_active_triple 43200000
                  [NodeRule (VNum 7) (VStr "trojan") []; example_rule]
                  [example_node]) as (_ & _ & _ & _ & H).
    apply (H [] (NodeRule (VNum 7) (VStr "trojan") []) [example_rule] eq_refl).
    intros w Hw. inversion Hw.
  - reflexivity.
Defined.

(** C5. Every record emitted by the loops is a matched remote node with
    [rate] set to the rate of a window of the matching rule that is active;
    every other field is the remote node's.  With the rule
    09:00-18:00 -> 1, 18:00-09:00 -> 2 and one remote node of that id and
    type, at 20:00:00 the plan is that node with [rate] 2, and nothing
    else. *)
Theorem reconcile_overwrites_rate_only :
  (forall now nodes existNodes r,
     r ∈ reconcile now nodes existNodes ->
     exists c e w,
       c ∈ nodes /\ e ∈ existNodes /\ w ∈ rate_config c /\
       same_node e c = true /\
       isTimeBetween now (start_time w) (end_time w) = true /\
       r = <["rate" := rate w]> e /\
       r !! "rate" = Some (rate w) /\
       (forall key, key ≠ "rate" -> r !! key = e !! key)) /\
  (forall now (e : object),
     time_of_day now = hms_ms (HMS 20 0 0) ->
     strict_eq (get e "id") (VNum 1) = true ->
     strict_eq (get e "type") (VStr "vmess") = true ->
     reconcile now [example_rule] [e] = [<["rate" := VNum 2]> e] /\
     (forall key, key ≠ "rate" ->
        (<["rate" := VNum 2]> e : object) !! key = e !! key)).
Proof.
  split.
  - intros now nodes existNodes r Hr. rewrite reconcile_plan in Hr.
    apply elem_of_plan in Hr as (c & e & w & Hc & He & Hw & Hsame & Hact & ->).
    exists c, e, w. unfold with_rate. repeat split; try assumption.
    + apply lookup_insert_eq.
    + intros key Hkey. now apply lookup_insert_ne.
  - intros now e Hnow Hid Htype. split.
    + rewrite reconcile_plan. unfold plan, example_rule, same_node. cbn.
      rewrite Hid, Htype. cbn.
      rewrite !isTimeBetween_offsets by reflexivity. rewrite Hnow. reflexivity.
    + intros key Hkey. now apply lookup_insert_ne.
Qed.

Lemma reconcile_overwrites_rate_only_witness :
  reconcile 43200000 [example_rule] [example_node] =
    [<["rate" := VNum 2]> example_node] /\
  get (<["rate" := VNum 2]> example_node) "name" = VStr "hk-01".
Proof.
  destruct reconcile_overwrites_rate_only as [_ H].
  destruct (H 43200000 example_node eq_refl eq_refl eq_refl) as [H1 H2].
  split; [exact H1 |].
  unfold get. rewrite H2 by discriminate. reflexivity.
Defined.

(** C9. The plan is a function of the configured rules, the remote nodes
    and the time of day alone: two passes over the same lists at instants
    with the same time of day produce the same records in the same
    order. *)
Theorem reconcile_deterministic
    (now1 now2 : Z) (nodes1 nodes2 : list node_rule)
    (existNodes1 existNodes2 : list object) :
  nodes1 = nodes2 -> existNodes1 = existNodes2 ->
  time_of_day now1 = time_of_day now2 ->
  reconcile now1 nodes1 existNodes1 = reconcile now2 nodes2 existNodes2.
Proof.
  intros -> -> Hnow. rewrite !reconcile_plan. unfold plan.
  apply list_bind_ext; [| reflexivity]. intros c.
  apply list_bind_ext; [| reflexivity]. intros e.
  destruct (same_node e c); [| reflexivity].
  apply list_bind_ext; [| reflexivity]. intros w.
  now rewrite (isTimeBetween_time_of_day now1 now2).
Qed.

Lemma reconcile_deterministic_witness :
  reconcile 43200000 [example_rule] [example_node] =
  reconcile (43200000 + 86400000) [example_rule] [example_node].
Proof.
  apply reconcile_deterministic; reflexivity.
Defined.

(* ===================================================================== *)
(** ** The apply step *)
(* ===================================================================== *)

Section ApplyFacts.

Variable E : env.

Lemma posted_app tr1 tr2 : posted (tr1 ++ tr2) = posted tr1 ++ posted tr2.
Proof. apply omap_app. Qed.

(** The posted copy differs from the record in [group_id] only. *)
Lemma make_postData_frame (r p : object) (key : string) :
  make_postData r = Ok p -> key ≠ "group_id" -> p !! key = r !! key.
Proof.
  unfold make_postData. intros H Hkey.
  destruct (truthy (get r "group_id")); [| now inversion H].
  destruct (get r "group_id"); try discriminate.
  inversion H; subst. now apply lookup_insert_ne.
Qed.

Lemma make_postData_get (r p : object) (key : string) :
  make_postData r = Ok p -> key ≠ "group_id" -> get p key = get r key.
Proof. intros H Hkey. unfold get. now rewrite (make_postData_frame r p key H Hkey). Qed.

Lemma sendable_spec (r : object) :
  sendable r = true <->
  make_postData r = Ok (payload r) /\ truthy (get (payload r) "type") = true.
Proof.
  unfold sendable, payload. destruct (make_postData r); split.
  - intros H. now split.
  - now intros [_ H].
  - discriminate.
  - now intros [H _].
Qed.

(** One iteration on a record that is sent: the request goes out, one line
    is logged, and the loop goes on, whatever the panel answered. *)
Lemma batchChange_step_sendable (r : object) (s : state) :
  sendable r = true ->
  batchChange_step E r s = (Ok tt, after_save E r s).
Proof.
  intros H. apply sendable_spec in H as [Hp Ht].
  unfold batchChange_step, after_save, lift, mbind, M_bind. rewrite Hp, Ht. cbn.
  unfold try_catch, post_save, mbind, M_bind, read, emit, log, emit. cbn.
  destruct (save_reply E (trace s) (payload r)); cbn;
    now rewrite <- app_assoc.
Qed.

(** One iteration on a record without a truthy [type]: nothing goes out
    and the loop is left by the exception. *)
Lemma batchChange_step_typeless (r : object) (s : state) :
  encodable r = true -> truthy (get r "type") = false ->
  batchChange_step E r s = (Throw (MissingType (get r "id")), s).
Proof.
  unfold encodable. intros Hp Ht.
  destruct (make_postData r) as [p |] eqn:Hr; [| discriminate].
  unfold batchChange_step, lift, mbind, M_bind. rewrite Hr.
  rewrite !(make_postData_get r p) by (assumption || discriminate).
  now rewrite Ht.
Qed.

Lemma batchChange_loop_cons (r : object) (rest : list object) (s : state) :
  batchChange_loop E (r :: rest) s =
  match batchChange_step E r s with
  | (Ok _, s') => batchChange_loop E rest s'
  | (Throw e, s') => (Throw e, s')
  end.
Proof. reflexivity. Qed.

Lemma batchChange_loop_app (l1 l2 : list object) (s : state) :
  batchChange_loop E (l1 ++ l2) s =
  match batchChange_loop E l1 s with
  | (Ok _, s') => batchChange_loop E l2 s'
  | (Throw e, s') => (Throw e, s')
  end.
Proof.
  revert s. induction l1 as [| r l1 IH]; intros s; [reflexivity |].
  rewrite <- app_comm_cons, !batchChange_loop_cons.
  destruct (batchChange_step E r s) as [[[] | e] s']; [apply IH | reflexivity].
Qed.

(** A batch of records that are all sent runs to its end. *)
Lemma batchChange_loop_sendable (batch : list object) (s : state) :
  Forall (fun r => sendable r = true) batch ->
  exists s',
    batchChange_loop E batch s = (Ok tt, s') /\
    authData s' = authData s /\ authorization s' = authorization s /\
    posted (trace s') = posted (trace s) ++ map payload batch.
Proof.
  intros H. revert s. induction H as [| r batch Hr _ IH]; intros s.
  - exists s. cbn. now rewrite app_nil_r.
  - rewrite batchChange_loop_cons, (batchChange_step_sendable r s Hr).
    destruct (IH (after_save E r s)) as (s' & Hrun & Ha & Hh & Hp).
    exists s'. repeat split; try assumption.
    rewrite Hp. unfold after_save. cbn [trace]. rewrite posted_app.
    cbn. destruct (save_reply E _ _); cbn; now rewrite <- app_assoc.
Qed.

End ApplyFacts.

(** C1 fails as stated: a record without [type] placed first makes
    [batchChange] throw before anything is posted, and the well-formed
    record after it is never sent. *)
Lemma batchChange_typeless_aborts_batch :
  sendable good_record = true /\
  batchChange panel_up [typeless_record; good_record] logged_in =
    (Throw (MissingType (VNum 5)), State sample_token sample_token []).
Proof. split; reflexivity. Qed.

(** C1, amended. A record without a truthy [type] makes [batchChange]
    throw at that record: the records before it have been posted, and
    neither it nor any record after it is. *)
Theorem batchChange_stops_at_typeless
    (E : env) (before : list object) (bad : object) (after : list object)
    (s : state) :
  truthy (authData s) = true ->
  Forall (fun r => sendable r = true) before ->
  encodable bad = true ->
  truthy (get bad "type") = false ->
  exists s',
    batchChange E (before ++ bad :: after) s =
      (Throw (MissingType (get bad "id")), s') /\
    posted (trace s') = posted (trace s) ++ map payload before.
Proof.
  intros Hauth Hbefore Henc Htype.
  unfold batchChange, read, set_authorization, mbind, M_bind. rewrite Hauth. cbn.
  rewrite batchChange_loop_app.
  destruct (batchChange_loop_sendable E before
              (State (authData s) (authData s) (trace s)) Hbefore)
    as (s' & Hrun & _ & _ & Hposted).
  rewrite Hrun, batchChange_loop_cons.
  rewrite (batchChange_step_typeless E bad s' Henc Htype).
  exists s'. split; [reflexivity | exact Hposted].
Qed.

Lemma batchChange_stops_at_typeless_witness :
  exists s',
    batchChange panel_up ([good_record] ++ typeless_record :: [good_record])
      logged_in = (Throw (MissingType (get typeless_record "id")), s') /\
    posted (trace s') = posted (trace logged_in) ++ map payload [good_record].
Proof.
  apply batchChange_stops_at_typeless; try reflexivity.
  constructor; [reflexivity | constructor].
Defined.

(** C6. A save request that fails is logged at error level, its record is
    left as it was on the panel, and the loop goes on with the rest of the
    batch: a batch of records that are all sent returns normally with every
    record posted once, in order, whatever the panel answered to each. *)
Theorem batchChange_save_failure_is_local (E : env) :
  (forall r rest s msg,
     sendable r = true ->
     save_reply E (trace s) (payload r) = Some msg ->
     batchChange_loop E (r :: rest) s =
     batchChange_loop E rest
       (State (authData s) (authorization s)
          (trace s ++
             [PostSave (authorization s) (payload r);
              Log Error (SaveFailed (get (payload r) "type")
                                    (get (payload r) "id")
                                    (RequestFailed msg))]))) /\
  (forall batch s,
     truthy (authData s) = true ->
     Forall (fun r => sendable r = true) batch ->
     fst (batchChange E batch s) = Ok tt /\
     posted (trace (snd (batchChange E batch s))) =
       posted (trace s) ++ map payload batch).
Proof.
  split.
  - intros r rest s msg Hr Hfail.
    rewrite batchChange_loop_cons, (batchChange_step_sendable E r s Hr).
    unfold after_save. now rewrite Hfail.
  - intros batch s Hauth Hbatch.
    unfold batchChange, read, set_authorization, mbind, M_bind.
    rewrite Hauth. cbn.
    destruct (batchChange_loop_sendable E batch
                (State (authData s) (authData s) (trace s)) Hbatch)
      as (s' & Hrun & _ & _ & Hposted).
    rewrite Hrun. split; [reflexivity | exact Hposted].
Qed.

Lemma batchChange_save_failure_is_local_witness :
  fst (batchChange saves_down [good_record; good_record] logged_in) = Ok tt /\
  posted (trace (snd (batchChange saves_down [good_record; good_record] logged_in))) =
    [payload good_record; payload good_record].
Proof.
  destruct (batchChange_save_failure_is_local saves_down) as [_ H].
  apply (H [good_record; good_record] logged_in eq_refl).
  repeat constructor.
Defined.

(** C8. A record whose [group_id] is the array [g0, ..., gn] is posted with
    [group_id] replaced by the array of pairs ["group_id[i]", gi], in
    order, and every other field as it is; a record whose [group_id] is
    absent or falsy is posted as it is. *)
Theorem group_id_posted_as_indexed_pairs (E : env) (r : object) (s : state) :
  truthy (get r "type") = true ->
  (forall ids,
     get r "group_id" = VArr ids ->
     let pairs :=
       imap (fun i g => VArr [VStr ("group_id[" +:+ pretty i +:+ "]"); g]) ids in
     payload r = <["group_id" := VArr pairs]> r /\
     length pairs = length ids /\
     (forall i g, ids !! i = Some g ->
        pairs !! i = Some (VArr [VStr ("group_id[" +:+ pretty i +:+ "]"); g])) /\
     (forall key, key ≠ "group_id" -> payload r !! key = r !! key) /\
     posted (trace (snd (batchChange_step E r s))) =
       posted (trace s) ++ [<["group_id" := VArr pairs]> r]) /\
  (truthy (get r "group_id") = false ->
     payload r = r /\
     posted (trace (snd (batchChange_step E r s))) = posted (trace s) ++ [r]).
Proof.
  intros Htype.
  assert (Hposted : forall p, make_postData r = Ok p ->
            posted (trace (snd (batchChange_step E r s))) = posted (trace s) ++ [p]).
  { intros p Hp.
    assert (Hpay : payload r = p) by (unfold payload; now rewrite Hp).
    assert (Hsend : sendable r = true).
    { unfold sendable. rewrite Hp.
      now rewrite (make_postData_get r p "type" Hp ltac:(discriminate)). }
    rewrite (batchChange_step_sendable E r s Hsend). unfold after_save.
    cbn [snd trace]. rewrite posted_app, Hpay. cbn.
    now destruct (save_reply E (trace s) p). }
  split.
  - intros ids Hids pairs.
    assert (Hp : make_postData r = Ok (<["group_id" := VArr pairs]> r)).
    { unfold make_postData. now rewrite Hids. }
    repeat split.
    + unfold payload. now rewrite Hp.
    + apply length_imap.
    + intros i g Hg. unfold pairs. rewrite list_lookup_imap, Hg. reflexivity.
    + intros key Hkey. unfold payload. rewrite Hp. now apply lookup_insert_ne.
    + now apply Hposted.
  - intros Hfalsy.
    assert (Hp : make_postData r = Ok r).
    { unfold make_postData. now rewrite Hfalsy. }
    split; [unfold payload; now rewrite Hp | now apply Hposted].
Qed.

Lemma group_id_posted_as_indexed_pairs_witness :
  payload good_record =
    <["group_id" := VArr [VArr [VStr "group_id[0]"; VNum 1];
                          VArr [VStr "group_id[1]"; VNum 3]]]> good_record /\
  payload plain_record = plain_record.
Proof.
  split.
  - destruct (group_id_posted_as_indexed_pairs panel_up good_record logged_in
                eq_refl) as [H _].
    destruct (H [VNum 1; VNum 3] eq_refl) as [H1 _]. exact H1.
  - destruct (group_id_posted_as_indexed_pairs panel_up plain_record logged_in
                eq_refl) as [_ H].
    destruct (H eq_refl) as [H1 _]. exact H1.
Defined.

(* ===================================================================== *)
(** ** The whole run *)
(* ===================================================================== *)

Section RunFacts.

Variable E : env.

Lemma getNodes_unauthorized (s : state) :
  truthy (authData s) = false -> getNodes E s = (Throw Unauthorized, s).
Proof.
  intros H. unfold getNodes, read, mbind, M_bind. now rewrite H.
Qed.

Lemma batchChange_unauthorized (batch : list object) (s : state) :
  truthy (authData s) = false -> batchChange E batch s = (Throw Unauthorized, s).
Proof.
  intros H. unfold batchChange, read, mbind, M_bind. now rewrite H.
Qed.

(** [loadConfig] touches nothing when it succeeds and logs one line when
    it fails. *)
Lemma loadConfig_inv (s : state) :
  match loadConfig E s with
  | (Ok _, s') => s' = s
  | (Throw e, s') =>
      s' = State (authData s) (authorization s)
             (trace s ++ [Log Error (ConfigFailed e)])
  end.
Proof.
  unfold loadConfig, try_catch, check_key, throw, log, emit, mbind, M_bind, mret, M_ret.
  destruct (config_file E) as [msg | c]; [reflexivity |].
  destruct (truthy (host c)); cbn; [| reflexivity].
  destruct (truthy (admin_path c)); cbn; [| reflexivity].
  destruct (truthy (admin_account c)); cbn; [| reflexivity].
  destruct (truthy (admin_password c)); cbn; [| reflexivity].
  destruct (nodes c); reflexivity.
Qed.

(** [login] stores the token only when the panel answered with an
    administrator's data; otherwise it logs the failure and rethrows. *)
Lemma login_inv (a p : value) (s : state) :
  match login E a p s with
  | (Ok _, s') =>
      exists o,
        login_reply E = inr (VObj o) /\
        strict_eq (get o "is_admin") (VNum 1) = true /\
        s' = State (get o "auth_data") (authorization s)
               (trace s ++ [PostLogin a p; Log Info LoginOk])
  | (Throw e, s') =>
      s' = State (authData s) (authorization s)
             (trace s ++ [PostLogin a p; Log Error (LoginFailed e)])
  end.
Proof.
  unfold login, try_catch, post_login, prop, throw, log, emit, set_authData,
    mbind, M_bind, mret, M_ret.
  cbn. destruct (login_reply E) as [msg | data]; cbn.
  { now rewrite <- app_assoc. }
  destruct data; cbn; try now rewrite <- app_assoc.
  destruct (strict_eq (get fields "is_admin") (VNum 1)) eqn:Hadm; cbn.
  - exists fields. repeat split; try assumption. now rewrite <- app_assoc.
  - now rewrite <- app_assoc.
Qed.

(** What [getNodes] adds to the trace. *)
Lemma getNodes_inv (s : state) :
  truthy (authData s) = true ->
  match getNodes E s with
  | (Ok _, s') =>
      s' = State (authData s) (authData s)
             (trace s ++ [GetNodes (authData s); Log Info NodesFetched])
  | (Throw e, s') =>
      s' = State (authData s) (authData s)
             (trace s ++ [GetNodes (authData s); Log Error (NodesFailed e)])
  end.
Proof.
  intros H.
  unfold getNodes, try_catch, get_nodes, read, set_authorization, throw, log,
    emit, mbind, M_bind, mret, M_ret.
  rewrite H. cbn.
  destruct (getNodes_reply E); cbn; now rewrite <- app_assoc.
Qed.

(** A save request carries the header set on entry to [batchChange]; the
    loop sends nothing else and leaves the client's fields alone. *)
Lemma batchChange_step_inv (r : object) (s : state) :
  exists evs,
    snd (batchChange_step E r s) =
      State (authData s) (authorization s) (trace s ++ evs) /\
    Forall (from_loop (authorization s)) evs.
Proof.
  destruct (sendable r) eqn:Hr.
  - rewrite (batchChange_step_sendable E r s Hr). eexists. split; [reflexivity |].
    repeat constructor. cbn. now destruct (save_reply E _ _).
  - exists []. split; [| constructor]. rewrite app_nil_r.
    unfold sendable in Hr. unfold batchChange_step, lift, mbind, M_bind.
    destruct (make_postData r) as [q |]; [| now destruct s].
    rewrite Hr. now destruct s.
Qed.

Lemma batchChange_loop_inv (batch : list object) (s : state) :
  exists evs,
    snd (batchChange_loop E batch s) =
      State (authData s) (authorization s) (trace s ++ evs) /\
    Forall (from_loop (authorization s)) evs.
Proof.
  revert s. induction batch as [| r batch IH]; intros s.
  - exists []. split; [| constructor]. rewrite app_nil_r. now destruct s.
  - rewrite batchChange_loop_cons.
    destruct (batchChange_step_inv r s) as (evs1 & Hs1 & Hev1).
    destruct (batchChange_step E r s) as [[[] | e] s1]; cbn in Hs1; subst s1.
    + destruct (IH (State (authData s) (authorization s) (trace s ++ evs1)))
        as (evs2 & Hs2 & Hev2).
      exists (evs1 ++ evs2). rewrite Hs2. cbn. rewrite app_assoc.
      split; [reflexivity |]. apply Forall_app. now split.
    + exists evs1. now split.
Qed.

Lemma batchChange_inv (batch : list object) (s : state) :
  truthy (authData s) = true ->
  exists evs,
    snd (batchChange E batch s) =
      State (authData s) (authData s) (trace s ++ evs) /\
    Forall (from_loop (authData s)) evs.
Proof.
  intros H. unfold batchChange, read, set_authorization, mbind, M_bind.
  rewrite H. cbn.
  apply (batchChange_loop_inv batch (State (authData s) (authData s) (trace s))).
Qed.

End RunFacts.

Section MainFacts.

Variable E : env.

Lemma from_loop_carries tok evs :
  Forall (from_loop tok) evs -> Forall (carries tok) evs.
Proof.
  intros H. eapply Forall_impl; [exact H |].
  intros [] Hev; cbn in *; tauto.
Qed.

(** [changeRate] never throws, and so neither does the entry point. *)
Lemma changeRate_returns (c : config) (s : state) :
  fst (changeRate E c s) = Ok tt.
Proof.
  unfold changeRate, try_catch, log, emit.
  match goal with |- context [match ?b s with _ => _ end] => destruct (b s) as [[[] | e] s'] end;
    reflexivity.
Qed.

Lemma main_returns : fst (main E fresh) = Ok tt.
Proof.
  unfold main, try_catch, log, emit, mbind, M_bind.
  destruct (loadConfig E fresh) as [[c | e] s0]; [| reflexivity].
  pose proof (changeRate_returns c s0) as H.
  destruct (changeRate E c s0) as [[[] | e] s1]; [reflexivity | discriminate].
Qed.

(** The run up to and including the login. *)
Lemma main_after_config (c : config) :
  fst (loadConfig E fresh) = Ok c ->
  main E fresh = changeRate E c fresh.
Proof.
  intros H. pose proof (loadConfig_inv E fresh) as Hinv.
  unfold main, try_catch, mbind, M_bind.
  destruct (loadConfig E fresh) as [[c' | e] s0]; cbn in H; [| discriminate].
  inversion H; subst.
  pose proof (changeRate_returns c fresh) as Hret.
  destruct (changeRate E c fresh) as [[[] | e] s1]; [reflexivity | discriminate].
Qed.

(** Every request of a run made under an authorization header carries the
    token stored by a successful login. *)
Lemma main_requests :
  Forall tokenless (trace (snd (main E fresh))) \/
  exists o,
    login_reply E = inr (VObj o) /\
    strict_eq (get o "is_admin") (VNum 1) = true /\
    truthy (get o "auth_data") = true /\
    Forall (carries (get o "auth_data")) (trace (snd (main E fresh))).
Proof.
  pose proof (loadConfig_inv E fresh) as Hcfg.
  destruct (loadConfig E fresh) as [[c | e] s0] eqn:Hload.
  2:{ left. unfold main, try_catch, mbind, M_bind, log, emit. rewrite Hload.
      subst s0. cbn. repeat constructor. }
  rewrite (main_after_config c) by now rewrite Hload.
  unfold changeRate, try_catch, mbind, M_bind, log, emit.
  pose proof (login_inv E (admin_account c) (admin_password c) fresh) as Hlogin.
  destruct (login E (admin_account c) (admin_password c) fresh) as [[[] | e] s1].
  2:{ left. subst s1. cbn. repeat constructor. }
  destruct Hlogin as (o & Hreply & Hadmin & ->).
  destruct (truthy (get o "auth_data")) eqn:Htok.
  2:{ left. rewrite getNodes_unauthorized by exact Htok. cbn. repeat constructor. }
  right. exists o. repeat split; try assumption.
  match goal with |- context [getNodes E ?s] =>
    pose proof (getNodes_inv E s Htok) as Hget;
    destruct (getNodes E s) as [[existNodes | e] s2]
  end; cbn in Hget; subst s2.
  2:{ cbn. repeat constructor. }
  destruct (0 <? length _)%nat.
  2:{ cbn. repeat constructor. }
  match goal with |- context [batchChange E ?b ?s] =>
    destruct (batchChange_inv E b s Htok) as (evs & Hs & Hevs);
    destruct (batchChange E b s) as [[[] | e] s3]
  end; cbn in Hs; subst s3; cbn.
  - repeat constructor. now apply from_loop_carries.
  - repeat constructor. apply Forall_app. split.
    + now apply from_loop_carries.
    + repeat constructor.
Qed.

End MainFacts.

(** C10. A client without stored authorization data makes [getNodes] and
    [batchChange] throw the unauthorized error with nothing sent and
    nothing changed; and in a whole run every node-list or save request
    carries the token that a successful administrator login stored. *)
Theorem requests_need_stored_token (E : env) :
  (forall s batch,
     truthy (authData s) = false ->
     getNodes E s = (Throw Unauthorized, s) /\
     batchChange E batch s = (Throw Unauthorized, s)) /\
  (forall batch,
     getNodes E fresh = (Throw Unauthorized, fresh) /\
     batchChange E batch fresh = (Throw Unauthorized, fresh)) /\
  (forall ev h,
     ev ∈ trace (snd (main E fresh)) ->
     ev = GetNodes h \/ (exists p, ev = PostSave h p) ->
     exists o,
       login_reply E = inr (VObj o) /\
       strict_eq (get o "is_admin") (VNum 1) = true /\
       truthy (get o "auth_data") = true /\
       h = get o "auth_data").
Proof.
  split; [| split].
  - intros s batch Hs. split.
    + exact (getNodes_unauthorized E s Hs).
    + exact (batchChange_unauthorized E batch s Hs).
  - intros batch. split.
    + exact (getNodes_unauthorized E fresh eq_refl).
    + exact (batchChange_unauthorized E batch fresh eq_refl).
  - intros ev h Hin Hev.
    destruct (main_requests E) as [Hnone | (o & Hreply & Hadmin & Htok & Hall)].
    + rewrite Forall_forall in Hnone. specialize (Hnone ev Hin).
      destruct Hev as [-> | [p ->]]; contradiction.
    + rewrite Forall_forall in Hall. specialize (Hall ev Hin).
      exists o. repeat split; try assumption.
      destruct Hev as [-> | [p ->]]; exact Hall.
Qed.

Lemma requests_need_stored_token_witness :
  batchChange panel_up [good_record] fresh = (Throw Unauthorized, fresh) /\
  exists o,
    login_reply panel_up = inr (VObj o) /\
    strict_eq (get o "is_admin") (VNum 1) = true /\
    truthy (get o "auth_data") = true /\
    sample_token = get o "auth_data".
Proof.
  destruct (requests_need_stored_token panel_up) as (H1 & _ & H3).
  split.
  - apply (H1 fresh [good_record] eq_refl).
  - apply (H3 (GetNodes sample_token) sample_token).
    + vm_compute. do 2 apply list_elem_of_further. apply list_elem_of_here.
    + left. reflexivity.
Defined.

(** C7 fails as stated: when the login request times out the run logs the
    failure and ends normally, with no failure signal. *)
Lemma login_failure_exits_normally :
  fst (login login_down (admin_account sample_config)
         (admin_password sample_config) fresh) =
    Throw (RequestFailed "timeout of 10000ms exceeded") /\
  fst (main login_down fresh) = Ok tt /\
  exit_code login_down = 0.
Proof. repeat split; reflexivity. Qed.

(** C7, amended. A failure to load the configuration, to log in or to
    fetch the node list stops the run where it occurs: after a failed load
    nothing is requested, after a failed login only the login was
    requested, after a failed fetch no save is posted; the failure is
    logged at error level, and the run then ends normally. *)
Theorem fatal_errors_stop_the_run (E : env) :
  fst (main E fresh) = Ok tt /\
  exit_code E = 0 /\
  (forall e,
     fst (loadConfig E fresh) = Throw e ->
     trace (snd (main E fresh)) =
       [Log Error (ConfigFailed e); Log Error (ScriptFailed e)]) /\
  (forall c e,
     fst (loadConfig E fresh) = Ok c ->
     fst (login E (admin_account c) (admin_password c) fresh) = Throw e ->
     trace (snd (main E fresh)) =
       [PostLogin (admin_account c) (admin_password c);
        Log Error (LoginFailed e); Log Error (ChangeRateFailed e)]) /\
  (forall c s1 e,
     fst (loadConfig E fresh) = Ok c ->
     login E (admin_account c) (admin_password c) fresh = (Ok tt, s1) ->
     fst (getNodes E s1) = Throw e ->
     trace (snd (main E fresh)) =
       trace (snd (getNodes E s1)) ++ [Log Error (ChangeRateFailed e)] /\
     posted (trace (snd (main E fresh))) = []).
Proof.
  split; [apply main_returns |].
  split; [unfold exit_code; now rewrite main_returns |].
  split; [| split].
  - intros e He. pose proof (loadConfig_inv E fresh) as Hinv.
    unfold main, try_catch, mbind, M_bind, log, emit.
    destruct (loadConfig E fresh) as [[c | e'] s0]; cbn in He; [discriminate |].
    inversion He; subst. reflexivity.
  - intros c e Hc He. rewrite (main_after_config E c Hc).
    pose proof (login_inv E (admin_account c) (admin_password c) fresh) as Hinv.
    unfold changeRate, try_catch, mbind, M_bind, log, emit.
    destruct (login E (admin_account c) (admin_password c) fresh)
      as [[[] | e'] s1]; cbn in He; [discriminate |].
    inversion He; subst. reflexivity.
  - intros c s1 e Hc Hlogin He. rewrite (main_after_config E c Hc).
    pose proof (login_inv E (admin_account c) (admin_password c) fresh) as Hinv.
    unfold changeRate, try_catch, mbind, M_bind, log, emit.
    rewrite Hlogin in *. destruct Hinv as (o & _ & _ & Hs1).
    assert (Hposted : posted (trace (snd (getNodes E s1))) = []).
    { destruct (truthy (authData s1)) eqn:Htok.
      - pose proof (getNodes_inv E s1 Htok) as Hget.
        destruct (getNodes E s1) as [[existNodes | e'] s2]; subst; reflexivity.
      - rewrite getNodes_unauthorized by exact Htok. subst. reflexivity. }
    destruct (getNodes E s1) as [[existNodes | e'] s2]; cbn in He; [discriminate |].
    inversion He; subst e'. cbn [snd trace] in *.
    split; [reflexivity |]. now rewrite posted_app, Hposted.
Qed.

Lemma fatal_errors_stop_the_run_witness :
  trace (snd (main config_incomplete fresh)) =
    [Log Error (ConfigFailed (MissingKey "nodes"));
     Log Error (ScriptFailed (MissingKey "nodes"))] /\
  trace (snd (main login_down fresh)) =
    [PostLogin (admin_account sample_config) (admin_password sample_config);
     Log Error (LoginFailed (RequestFailed "timeout of 10000ms exceeded"));
     Log Error (ChangeRateFailed (RequestFailed "timeout of 10000ms exceeded"))] /\
  posted (trace (snd (main fetch_down fresh))) = [].
Proof.
  split; [| split].
  - destruct (fatal_errors_stop_the_run config_incomplete) as (_ & _ & H & _).
    apply (H (MissingKey "nodes")). reflexivity.
  - destruct (fatal_errors_stop_the_run login_down) as (_ & _ & _ & H & _).
    apply (H sample_config); reflexivity.
  - destruct (fatal_errors_stop_the_run fetch_down) as (_ & _ & _ & _ & H).
    apply (H sample_config
             (State sample_token (VStr "")
                [PostLogin (admin_account sample_config)
                   (admin_password sample_config);
                 Log Info LoginOk])
             (RequestFailed "Network Error")); reflexivity.
Defined.

(* ===================================================================== *)
(** ** Further properties of the window test *)
(* ===================================================================== *)

(** X1. From 08:00:00 Shanghai time until midnight, [isTimeBetween] is the
    inclusive window test on the time of day: start <= now <= end for a
    window that does not cross midnight, now >= start or now <= end for one
    that does. *)
Theorem isTimeBetween_agrees_from_8am (t : Z) (s e : hms) :
  hms_valid s = true -> hms_valid e = true ->
  SHANGHAI_OFFSET_MS <= time_of_day t ->
  (hms_ms s <= hms_ms e ->
     (isTimeBetween t s e = true <-> hms_ms s <= time_of_day t <= hms_ms e)) /\
  (hms_ms s > hms_ms e ->
     (isTimeBetween t s e = true <->
        hms_ms s <= time_of_day t \/ time_of_day t <= hms_ms e)).
Proof.
  intros Hs He _. pose proof (isTimeBetween_window t s e Hs He) as H.
  split; intros Hse.
  - destruct (Z.ltb_spec (hms_ms e) (hms_ms s)); [lia | exact H].
  - destruct (Z.ltb_spec (hms_ms e) (hms_ms s)); [exact H | lia].
Qed.

Lemma isTimeBetween_agrees_from_8am_witness :
  isTimeBetween 43200000 (HMS 9 0 0) (HMS 18 0 0) = false /\
  isTimeBetween 43200000 (HMS 18 0 0) (HMS 9 0 0) = true.
Proof.
  destruct (isTimeBetween_agrees_from_8am 43200000 (HMS 9 0 0) (HMS 18 0 0)
              eq_refl eq_refl ltac:(vm_compute; discriminate)) as [H1 _].
  destruct (isTimeBetween_agrees_from_8am 43200000 (HMS 18 0 0) (HMS 9 0 0)
              eq_refl eq_refl ltac:(vm_compute; discriminate)) as [_ H2].
  split.
  - apply not_true_is_false. intros H.
    apply (H1 ltac:(vm_compute; discriminate)) in H.
    vm_compute in H. destruct H as [_ H]. now apply H.
  - apply (H2 eq_refl). left. vm_compute. discriminate.
Defined.

(** X3. A window one of whose bounds has a field out of range (an hour
    above 24, a minute or second above 59) is active at no time, and a rule
    all of whose windows are such adds no record to the plan. *)
Theorem overflowed_bound_never_active (s e : hms) :
  hms_valid s = false \/ hms_valid e = false ->
  (forall t, isTimeBetween t s e = false) /\
  (forall t id type rate existNodes,
     reconcile t [NodeRule id type [RateWindow s e rate]] existNodes = []).
Proof.
  intros H. split.
  - intros t. now apply isTimeBetween_invalid.
  - intros t id type rate0 existNodes. rewrite reconcile_plan.
    apply plan_rule_silent. right. intros w Hw.
    apply list_elem_of_singleton in Hw. subst w. cbn.
    now apply isTimeBetween_invalid.
Qed.

Lemma overflowed_bound_never_active_witness :
  isTimeBetween 43200000 (HMS 0 0 0) (HMS 25 0 0) = false /\
  reconcile 43200000
    [NodeRule (VNum 1) (VStr "vmess") [RateWindow (HMS 0 0 0) (HMS 23 60 0) (VNum 2)]]
    [example_node] = [].
Proof.
  split.
  - apply (overflowed_bound_never_active (HMS 0 0 0) (HMS 25 0 0)).
    right. reflexivity.
  - apply (overflowed_bound_never_active (HMS 0 0 0) (HMS 23 60 0)).
    right. reflexivity.
Defined.

(* ===================================================================== *)
(** ** Further properties of the plan *)
(* ===================================================================== *)

Section PlanShape.

Variable now : Z.

Lemma window_records e ws :
  (ws ≫= fun w => if isTimeBetween now (start_time w) (end_time w)
                    then [with_rate e w] else []) =
  with_rate e <$>
    List.filter (fun w => isTimeBetween now (start_time w) (end_time w)) ws.
Proof.
  induction ws as [| w ws IH]; [reflexivity |].
  rewrite bind_cons, IH. cbn [List.filter].
  now destruct (isTimeBetween now (start_time w) (end_time w)).
Qed.

Lemma with_rate_get e w key :
  key ≠ "rate" -> get (with_rate e w) key = get e key.
Proof.
  intros H. unfold get, with_rate. rewrite lookup_insert_ne; [reflexivity |].
  intros Heq. now apply H.
Qed.

Lemma with_rate_same_node e w c :
  same_node (with_rate e w) c = same_node e c.
Proof. unfold same_node. now rewrite !with_rate_get by discriminate. Qed.

End PlanShape.

Lemma strict_eq_truthy a b : strict_eq a b = true -> truthy a = truthy b.
Proof.
  destruct a, b; cbn; try discriminate; try reflexivity.
  - intros H. apply Bool.eqb_prop in H. now subst.
  - intros H. apply Qeq_bool_iff in H. f_equal.
    destruct (Qeq_bool q 0) eqn:H1, (Qeq_bool q0 0) eqn:H2; try reflexivity.
    + apply Qeq_bool_iff in H1. rewrite H in H1.
      apply Qeq_bool_iff in H1. congruence.
    + apply Qeq_bool_iff in H2. rewrite <- H in H2.
      apply Qeq_bool_iff in H2. congruence.
  - intros H. apply String.eqb_eq in H. now subst.
Qed.

(** X4. Rules are processed independently and in order: the plan for a
    list of rules is the plan for its first part followed by the plan for
    the rest, and for a single rule the plan over a list of remote nodes is
    the plan over its first part followed by the plan over the rest. *)
Theorem reconcile_splits
    (now : Z) (nodes1 nodes2 : list node_rule) (c : node_rule)
    (existNodes existNodes1 existNodes2 : list object) :
  reconcile now (nodes1 ++ nodes2) existNodes =
    reconcile now nodes1 existNodes ++ reconcile now nodes2 existNodes /\
  reconcile now [c] (existNodes1 ++ existNodes2) =
    reconcile now [c] existNodes1 ++ reconcile now [c] existNodes2.
Proof.
  rewrite !reconcile_plan. split; [apply plan_app |].
  unfold plan. rewrite !bind_cons, !app_nil_r. apply bind_app.
Qed.

(** X5. For one rule and one remote node the plan is empty when id or type
    differ, and otherwise holds the node once per active window, in window
    order, each time with that window's rate: windows that overlap at the
    current time give several records for the same node. *)
Theorem reconcile_one_node (now : Z) (c : node_rule) (e : object) :
  reconcile now [c] [e] =
    if same_node e c
    then with_rate e <$>
           List.filter (fun w => isTimeBetween now (start_time w) (end_time w))
             (rate_config c)
    else [].
Proof.
  rewrite reconcile_plan. unfold plan.
  rewrite !bind_cons, !app_nil_r.
  destruct (same_node e c); [apply window_records | reflexivity].
Qed.

(** X6. Every record of the plan still matches the rule it came from, and
    its [type] is truthy exactly when the rule's is: rules with a non-empty
    type never yield a record without one. *)
Theorem planned_record_matches_rule
    (now : Z) (nodes : list node_rule) (existNodes : list object) (r : object) :
  r ∈ reconcile now nodes existNodes ->
  exists c, c ∈ nodes /\ same_node r c = true /\
            truthy (get r "type") = truthy (node_type c).
Proof.
  intros Hr. rewrite reconcile_plan in Hr.
  apply elem_of_plan in Hr as (c & e & w & Hc & _ & _ & Hsame & _ & ->).
  exists c. rewrite with_rate_same_node. repeat split; try assumption.
  unfold same_node in Hsame. apply andb_prop in Hsame as [_ Htype].
  rewrite with_rate_get by discriminate. now apply strict_eq_truthy.
Qed.

Lemma planned_record_matches_rule_witness :
  exists c, c ∈ [example_rule] /\ same_node good_record c = true /\
            truthy (get good_record "type") = truthy (node_type c).
Proof.
  apply (planned_record_matches_rule 43200000 [example_rule] [example_node]).
  vm_compute. apply list_elem_of_here.
Defined.

(* ===================================================================== *)
(** ** Further properties of the client *)
(* ===================================================================== *)

Section ClientFacts.

Variable E : env.

(** [login], case by case on the panel's answer. *)
Lemma login_cases (a p : value) (s : state) :
  login E a p s =
  match login_reply E with
  | inl msg => login_failed a p (RequestFailed msg) s
  | inr (VObj o) =>
      if strict_eq (get o "is_admin") (VNum 1)
      then (Ok tt,
            State (get o "auth_data") (authorization s)
              (trace s ++ [PostLogin a p; Log Info LoginOk]))
      else login_failed a p NotAdmin s
  | inr VUndefined | inr VNull => login_failed a p TypeError s
  | inr _ => login_failed a p NotAdmin s
  end.
Proof.
  unfold login, login_failed, try_catch, post_login, prop, throw, log, emit,
    set_authData, mbind, M_bind, mret, M_ret.
  cbn. destruct (login_reply E) as [msg | data]; cbn.
  { now rewrite <- app_assoc. }
  destruct data; cbn; try now rewrite <- app_assoc.
  destruct (strict_eq (get fields "is_admin") (VNum 1)); cbn;
    now rewrite <- app_assoc.
Qed.

(** A record that is not sent stops the loop with nothing done. *)
Lemma batchChange_step_unsendable (r : object) (s : state) :
  sendable r = false ->
  batchChange_step E r s = (Throw (rejection r), s).
Proof.
  unfold sendable, rejection, batchChange_step, lift, mbind, M_bind.
  destruct (make_postData r) as [q |]; [| reflexivity].
  now intros ->.
Qed.

Lemma requests_app tr1 tr2 : requests (tr1 ++ tr2) = requests tr1 ++ requests tr2.
Proof. apply List.filter_app. Qed.

Lemma requests_from_loop hdr evs :
  Forall (from_loop hdr) evs -> requests evs = PostSave hdr <$> posted evs.
Proof.
  unfold requests, posted.
  induction 1 as [| ev evs Hev _ IH]; [reflexivity |].
  destruct ev; cbn in *; try contradiction; [exact IH |].
  subst. now rewrite IH.
Qed.

(** Any batch: the longest run of sendable records at its head is posted,
    and the loop ends there. *)
Lemma batchChange_loop_prefix (batch : list object) (s : state) :
  exists pre post,
    batch = pre ++ post /\
    Forall (fun r => sendable r = true) pre /\
    posted (trace (snd (batchChange_loop E batch s))) =
      posted (trace s) ++ map payload pre /\
    match post with
    | [] => fst (batchChange_loop E batch s) = Ok tt
    | bad :: _ =>
        sendable bad = false /\
        fst (batchChange_loop E batch s) = Throw (rejection bad)
    end.
Proof.
  revert s. induction batch as [| r batch IH]; intros s.
  - exists [], []. cbn. rewrite app_nil_r. repeat split. constructor.
  - rewrite batchChange_loop_cons. destruct (sendable r) eqn:Hr.
    + rewrite (batchChange_step_sendable E r s Hr).
      destruct (IH (after_save E r s)) as (pre & post & -> & Hpre & Hposted & Hend).
      exists (r :: pre), post. repeat split.
      * now constructor.
      * rewrite Hposted. unfold after_save. cbn [trace]. rewrite posted_app.
        cbn. destruct (save_reply E _ _); cbn; now rewrite <- app_assoc.
      * exact Hend.
    + rewrite (batchChange_step_unsendable r s Hr).
      exists [], (r :: batch). cbn. rewrite app_nil_r. repeat split; auto.
Qed.

End ClientFacts.

(** X7. [loadConfig] throws for the first of host, admin_path,
    admin_account, admin_password, nodes (in this order) that is missing or
    falsy, and for a file that cannot be read or parsed; it then logs
    exactly one error line.  With all five present it returns the
    configuration, logs nothing and leaves the client untouched. *)
Theorem loadConfig_first_missing_key (E : env) (s : state) :
  loadConfig E s =
  match config_file E with
  | inl msg =>
      (Throw (ConfigUnreadable msg),
       State (authData s) (authorization s)
         (trace s ++ [Log Error (ConfigFailed (ConfigUnreadable msg))]))
  | inr c =>
      match first_missing c with
      | Some key =>
          (Throw (MissingKey key),
           State (authData s) (authorization s)
             (trace s ++ [Log Error (ConfigFailed (MissingKey key))]))
      | None => (Ok c, s)
      end
  end.
Proof.
  unfold loadConfig, try_catch, check_key, throw, log, emit, mbind, M_bind,
    mret, M_ret, first_missing, required_values.
  destruct (config_file E) as [msg | c]; [reflexivity |]. cbn.
  destruct (truthy (host c)); cbn; [| reflexivity].
  destruct (truthy (admin_path c)); cbn; [| reflexivity].
  destruct (truthy (admin_account c)); cbn; [| reflexivity].
  destruct (truthy (admin_password c)); cbn; [| reflexivity].
  destruct (nodes c); reflexivity.
Qed.

(** X8. [login] sends exactly one request and returns normally exactly
    when the panel answers with an object whose [is_admin] is 1; it then
    stores that object's [auth_data].  In every other case (request
    rejected, no data, not an administrator) it throws and the stored
    authorization data is what it was. *)
Theorem login_stores_token_only_for_admin (E : env) (a p : value) (s : state) :
  (fst (login E a p s) = Ok tt <->
     exists o, login_reply E = inr (VObj o) /\
               strict_eq (get o "is_admin") (VNum 1) = true) /\
  (forall o, login_reply E = inr (VObj o) ->
             strict_eq (get o "is_admin") (VNum 1) = true ->
             authData (snd (login E a p s)) = get o "auth_data") /\
  (fst (login E a p s) <> Ok tt ->
     authData (snd (login E a p s)) = authData s) /\
  requests (trace (snd (login E a p s))) = requests (trace s) ++ [PostLogin a p] /\
  authorization (snd (login E a p s)) = authorization s.
Proof.
  rewrite login_cases. unfold login_failed.
  destruct (login_reply E) as [msg | data].
  { repeat split; try discriminate; try reflexivity.
    - intros (o & Ho & _). discriminate.
    - cbn. now rewrite requests_app. }
  destruct data as [| | b | q | | str | elems | o];
    try (repeat split; try discriminate; try reflexivity;
         [ intros (o' & Ho & _); discriminate
         | cbn; now rewrite requests_app ]).
  destruct (strict_eq (get o "is_admin") (VNum 1)) eqn:Hadm.
  - repeat split; try reflexivity.
    + intros _. now exists o.
    + intros o' Ho _. now inversion Ho.
    + intros H. now contradiction H.
    + cbn. now rewrite requests_app.
  - repeat split; try discriminate; try reflexivity.
    + intros (o' & Ho & Hadm'). inversion Ho; subst. congruence.
    + intros o' Ho Hadm'. inversion Ho; subst. congruence.
    + cbn. now rewrite requests_app.
Qed.

Lemma login_stores_token_only_for_admin_witness :
  authData (snd (login panel_up (VStr "root@example.com") (VStr "hunter2") fresh))
    = sample_token /\
  authData (snd (login not_admin (VStr "root@example.com") (VStr "hunter2") fresh))
    = VNull.
Proof.
  split.
  - destruct (login_stores_token_only_for_admin panel_up
                (VStr "root@example.com") (VStr "hunter2") fresh)
      as (_ & H & _).
    exact (H _ eq_refl eq_refl).
  - destruct (login_stores_token_only_for_admin not_admin
                (VStr "root@example.com") (VStr "hunter2") fresh)
      as (_ & _ & H & _).
    apply H. vm_compute. discriminate.
Defined.

(** X9. For any batch, [batchChange] on a client with authorization data
    posts the records up to the first one it cannot send (a truthy
    [group_id] that is not an array, or no truthy [type]), each once and in
    order, and then either returns (no such record) or throws that
    record's error (a TypeError, or the missing-type error with its id);
    nothing after that record is posted. *)
Theorem batchChange_posts_sendable_prefix
    (E : env) (batch : list object) (s : state) :
  truthy (authData s) = true ->
  exists pre post,
    batch = pre ++ post /\
    Forall (fun r => sendable r = true) pre /\
    posted (trace (snd (batchChange E batch s))) =
      posted (trace s) ++ map payload pre /\
    match post with
    | [] => fst (batchChange E batch s) = Ok tt
    | bad :: _ =>
        sendable bad = false /\
        fst (batchChange E batch s) = Throw (rejection bad)
    end.
Proof.
  intros Hauth. unfold batchChange, read, set_authorization, mbind, M_bind.
  rewrite Hauth. cbn.
  apply (batchChange_loop_prefix E batch (State (authData s) (authData s) (trace s))).
Qed.

Lemma batchChange_posts_sendable_prefix_witness :
  exists pre post,
    [good_record; odd_group_record; plain_record] = pre ++ post /\
    Forall (fun r => sendable r = true) pre /\
    posted (trace (snd (batchChange panel_up
                          [good_record; odd_group_record; plain_record] logged_in))) =
      posted (trace logged_in) ++ map payload pre /\
    match post with
    | [] => fst (batchChange panel_up
                   [good_record; odd_group_record; plain_record] logged_in) = Ok tt
    | bad :: _ =>
        sendable bad = false /\
        fst (batchChange panel_up
               [good_record; odd_group_record; plain_record] logged_in) =
          Throw (rejection bad)
    end.
Proof.
  apply (batchChange_posts_sendable_prefix panel_up
           [good_record; odd_group_record; plain_record] logged_in).
  reflexivity.
Defined.

(** X10. [getNodes] and [batchChange], on a client with authorization
    data, never change that data and leave the authorization header equal
    to it, whatever the header held before and however the call ends;
    every request they send carries it. *)
Theorem requests_carry_current_token
    (E : env) (batch : list object) (s : state) :
  truthy (authData s) = true ->
  (authData (snd (getNodes E s)) = authData s /\
   authorization (snd (getNodes E s)) = authData s /\
   requests (trace (snd (getNodes E s))) =
     requests (trace s) ++ [GetNodes (authData s)]) /\
  (authData (snd (batchChange E batch s)) = authData s /\
   authorization (snd (batchChange E batch s)) = authData s /\
   exists payloads,
     requests (trace (snd (batchChange E batch s))) =
       requests (trace s) ++ (PostSave (authData s) <$> payloads)).
Proof.
  intros Hauth. split.
  - pose proof (getNodes_inv E s Hauth) as H.
    destruct (getNodes E s) as [[data | e] s']; cbn; subst s'; cbn;
      rewrite requests_app; repeat split.
  - destruct (batchChange_inv E batch s Hauth) as (evs & Hs & Hevs).
    rewrite Hs. cbn. repeat split.
    exists (posted evs). rewrite requests_app. f_equal.
    now apply requests_from_loop.
Qed.

Lemma requests_carry_current_token_witness :
  authorization (snd (getNodes panel_up stale_header)) = sample_token /\
  authorization (snd (batchChange saves_down [good_record] stale_header)) =
    sample_token.
Proof.
  destruct (requests_carry_current_token panel_up [good_record] stale_header
              eq_refl) as [(_ & H1 & _) _].
  destruct (requests_carry_current_token saves_down [good_record] stale_header
              eq_refl) as [_ (_ & H2 & _)].
  split; [exact H1 | exact H2].
Defined.

(* ===================================================================== *)
(** ** Further properties of the whole run *)
(* ===================================================================== *)

Section WholeRun.

Variable E : env.

(** The client right after a successful login of a fresh run. *)
Local Abbreviation after_login c o :=
  (State (get o "auth_data") (VStr "")
     [PostLogin (admin_account c) (admin_password c); Log Info LoginOk]).

Lemma loadConfig_ok_nodes (c : config) (s : state) :
  fst (loadConfig E s) = Ok c -> exists cs, nodes c = Some cs.
Proof.
  unfold loadConfig, try_catch, check_key, throw, log, emit, mbind, M_bind,
    mret, M_ret.
  destruct (config_file E) as [msg | c']; [discriminate |]. cbn.
  destruct (truthy (host c')); cbn; [| discriminate].
  destruct (truthy (admin_path c')); cbn; [| discriminate].
  destruct (truthy (admin_account c')); cbn; [| discriminate].
  destruct (truthy (admin_password c')); cbn; [| discriminate].
  destruct (nodes c') as [cs |] eqn:Hn; cbn; [| discriminate].
  intros H. inversion H; subst. now exists cs.
Qed.

(** The rest of a run whose configuration loaded and whose login was
    accepted. *)
Lemma main_logged_in (c : config) (o : object) :
  fst (loadConfig E fresh) = Ok c ->
  login_reply E = inr (VObj o) ->
  strict_eq (get o "is_admin") (VNum 1) = true ->
  main E fresh =
  try_catch
    (existNodes ← getNodes E;
     if (0 <? length (reconcile (now E) (default [] (nodes c)) existNodes))%nat
     then batchChange E (reconcile (now E) (default [] (nodes c)) existNodes)
     else log NothingToUpdate Info)
    (fun error => log (ChangeRateFailed error) Error)
    (after_login c o).
Proof.
  intros Hc Hreply Hadm. rewrite (main_after_config E c Hc).
  unfold changeRate, try_catch, mbind, M_bind.
  rewrite login_cases, Hreply, Hadm. reflexivity.
Qed.

Lemma getNodes_ok (existNodes : list object) (s : state) :
  truthy (authData s) = true ->
  getNodes_reply E = inr existNodes ->
  getNodes E s =
    (Ok existNodes,
     State (authData s) (authData s)
       (trace s ++ [GetNodes (authData s); Log Info NodesFetched])).
Proof.
  intros Hauth Hreply.
  unfold getNodes, try_catch, get_nodes, read, set_authorization, throw, log,
    emit, mbind, M_bind, mret, M_ret.
  rewrite Hauth, Hreply. cbn. now rewrite <- app_assoc.
Qed.

Lemma sendable_split (r : object) :
  sendable r = encodable r && truthy (get r "type").
Proof.
  unfold sendable, encodable.
  destruct (make_postData r) as [q |] eqn:Hq; [| reflexivity].
  now rewrite (make_postData_get r q "type" Hq) by discriminate.
Qed.

Lemma with_rate_encodable (e : object) (w : rate_window) :
  encodable (with_rate e w) = encodable e.
Proof.
  unfold encodable, make_postData.
  rewrite (with_rate_get e w "group_id") by discriminate.
  destruct (truthy (get e "group_id")); [| reflexivity].
  now destruct (get e "group_id").
Qed.

(** A plan made from rules with a type and nodes with a usable [group_id]
    holds only records that are sent. *)
Lemma plan_sendable (cs : list node_rule) (es : list object) :
  (forall c, c ∈ cs -> truthy (node_type c) = true) ->
  (forall e, e ∈ es -> encodable e = true) ->
  Forall (fun r => sendable r = true) (reconcile (now E) cs es).
Proof.
  intros Hcs Hes. apply Forall_forall. intros r Hr.
  rewrite reconcile_plan in Hr.
  apply elem_of_plan in Hr as (c & e & w & Hc & He & _ & Hsame & _ & ->).
  rewrite sendable_split, with_rate_encodable, (Hes e He).
  rewrite with_rate_get by discriminate.
  unfold same_node in Hsame. apply andb_prop in Hsame as [_ Htype].
  rewrite (strict_eq_truthy _ _ Htype). now apply Hcs.
Qed.

End WholeRun.

(** X11. When the panel accepts an administrator's login but its answer
    holds no usable [auth_data], the run logs the login as successful, then
    stops with the unauthorized error before asking for the node list: the
    login is the only request. *)
Theorem run_without_token_stops_after_login
    (E : env) (c : config) (o : object) :
  fst (loadConfig E fresh) = Ok c ->
  login_reply E = inr (VObj o) ->
  strict_eq (get o "is_admin") (VNum 1) = true ->
  truthy (get o "auth_data") = false ->
  trace (snd (main E fresh)) =
    [PostLogin (admin_account c) (admin_password c);
     Log Info LoginOk;
     Log Error (ChangeRateFailed Unauthorized)].
Proof.
  intros Hc Hreply Hadm Htok.
  rewrite (main_logged_in E c o Hc Hreply Hadm).
  unfold try_catch, mbind, M_bind.
  now rewrite getNodes_unauthorized by exact Htok.
Qed.

Lemma run_without_token_stops_after_login_witness :
  trace (snd (main token_missing fresh)) =
    [PostLogin (admin_account sample_config) (admin_password sample_config);
     Log Info LoginOk;
     Log Error (ChangeRateFailed Unauthorized)].
Proof.
  apply (run_without_token_stops_after_login token_missing sample_config
           (<["is_admin" := VNum 1]> ∅)); reflexivity.
Defined.

(** X12. When login and fetch succeed and no configured rule has a
    matching node with an active window, the run logs that there is nothing
    to update and posts no save: its requests are the login and the
    fetch. *)
Theorem run_with_empty_plan_posts_nothing
    (E : env) (c : config) (o : object) (existNodes : list object) :
  fst (loadConfig E fresh) = Ok c ->
  login_reply E = inr (VObj o) ->
  strict_eq (get o "is_admin") (VNum 1) = true ->
  truthy (get o "auth_data") = true ->
  getNodes_reply E = inr existNodes ->
  reconcile (now E) (default [] (nodes c)) existNodes = [] ->
  main E fresh =
    (Ok tt,
     State (get o "auth_data") (get o "auth_data")
       [PostLogin (admin_account c) (admin_password c);
        Log Info LoginOk;
        GetNodes (get o "auth_data");
        Log Info NodesFetched;
        Log Info NothingToUpdate]).
Proof.
  intros Hc Hreply Hadm Htok Hnodes Hplan.
  rewrite (main_logged_in E c o Hc Hreply Hadm).
  unfold try_catch, mbind, M_bind.
  rewrite (getNodes_ok E existNodes) by assumption.
  rewrite Hplan. reflexivity.
Qed.

Lemma run_with_empty_plan_posts_nothing_witness :
  main panel_idle fresh =
    (Ok tt,
     State sample_token sample_token
       [PostLogin (admin_account sample_config) (admin_password sample_config);
        Log Info LoginOk;
        GetNodes sample_token;
        Log Info NodesFetched;
        Log Info NothingToUpdate]).
Proof.
  exact (run_with_empty_plan_posts_nothing panel_idle sample_config
           (<["is_admin" := VNum 1]> (<["auth_data" := sample_token]> ∅))
           [plain_record] eq_refl eq_refl eq_refl eq_refl eq_refl eq_refl).
Defined.

(** X13. When login and fetch succeed, every configured rule has a truthy
    type and every remote node a [group_id] that is absent, falsy or an
    array, the run posts exactly the plan: one save per planned record, in
    plan order, each in its posted form, whatever the panel answers to the
    saves. *)
Theorem run_posts_the_plan
    (E : env) (c : config) (o : object) (cs : list node_rule)
    (existNodes : list object) :
  fst (loadConfig E fresh) = Ok c ->
  nodes c = Some cs ->
  login_reply E = inr (VObj o) ->
  strict_eq (get o "is_admin") (VNum 1) = true ->
  truthy (get o "auth_data") = true ->
  getNodes_reply E = inr existNodes ->
  (forall rule, rule ∈ cs -> truthy (node_type rule) = true) ->
  (forall e, e ∈ existNodes -> encodable e = true) ->
  posted (trace (snd (main E fresh))) =
    payload <$> reconcile (now E) cs existNodes.
Proof.
  intros Hc Hcs Hreply Hadm Htok Hnodes Htypes Hgroups.
  rewrite (main_logged_in E c o Hc Hreply Hadm).
  unfold try_catch, mbind, M_bind.
  rewrite (getNodes_ok E existNodes) by assumption.
  rewrite Hcs. change (default [] (Some cs)) with cs.
  pose proof (plan_sendable E cs existNodes Htypes Hgroups) as Hsend.
  destruct (reconcile (now E) cs existNodes) as [| r rs] eqn:Hplan;
    [reflexivity |].
  cbn [length Nat.ltb Nat.leb].
  unfold batchChange, read, set_authorization, mbind, M_bind.
  cbn [authData]. rewrite Htok. cbn [negb].
  match goal with |- context [batchChange_loop E ?b ?s] =>
    destruct (batchChange_loop_sendable E b s Hsend) as (s' & Hrun & _ & _ & Hposted)
  end.
  cbn [authData authorization trace] in *. rewrite Hrun. exact Hposted.
Qed.

Lemma run_posts_the_plan_witness :
  posted (trace (snd (main saves_down fresh))) =
    payload <$> reconcile (now saves_down) [example_rule] [example_node].
Proof.
  apply (run_posts_the_plan saves_down sample_config
           (<["is_admin" := VNum 1]> (<["auth_data" := sample_token]> ∅)));
    try reflexivity.
  - intros rule Hrule. apply list_elem_of_singleton in Hrule. now subst.
  - intros e He. apply list_elem_of_singleton in He. now subst.
Defined.

Section RequestOrder.

Variable E : env.

Lemma loadConfig_ok_file (c : config) (s : state) :
  fst (loadConfig E s) = Ok c -> config_file E = inr c.
Proof.
  unfold loadConfig, try_catch, check_key, throw, log, emit, mbind, M_bind,
    mret, M_ret.
  destruct (config_file E) as [msg | c']; [discriminate |]. cbn.
  destruct (truthy (host c')); cbn; [| discriminate].
  destruct (truthy (admin_path c')); cbn; [| discriminate].
  destruct (truthy (admin_account c')); cbn; [| discriminate].
  destruct (truthy (admin_password c')); cbn; [| discriminate].
  destruct (nodes c'); cbn; [| discriminate].
  intros H. now inversion H.
Qed.

End RequestOrder.

(** X14. A run sends its requests in one fixed order and repeats none: no
    request at all, or the login alone, or the login, then one fetch of the
    node list, then the saves; fetch and saves carry one and the same
    token. *)
Theorem run_request_order (E : env) :
  requests (trace (snd (main E fresh))) = [] \/
  exists c,
    config_file E = inr c /\
    (requests (trace (snd (main E fresh))) =
       [PostLogin (admin_account c) (admin_password c)] \/
     exists tok payloads,
       requests (trace (snd (main E fresh))) =
         PostLogin (admin_account c) (admin_password c)
           :: GetNodes tok :: (PostSave tok <$> payloads)).
Proof.
  pose proof (loadConfig_inv E fresh) as Hcfg.
  destruct (loadConfig E fresh) as [[c | e] s0] eqn:Hload.
  2:{ left. unfold main, try_catch, mbind, M_bind, log, emit. rewrite Hload.
      subst s0. reflexivity. }
  right. exists c. split.
  { apply (loadConfig_ok_file E c fresh). now rewrite Hload. }
  rewrite (main_after_config E c) by now rewrite Hload.
  unfold changeRate, try_catch, mbind, M_bind, log, emit.
  pose proof (login_inv E (admin_account c) (admin_password c) fresh) as Hlogin.
  destruct (login E (admin_account c) (admin_password c) fresh) as [[[] | e] s1].
  2:{ left. subst s1. reflexivity. }
  destruct Hlogin as (o & _ & _ & ->).
  destruct (truthy (get o "auth_data")) eqn:Htok.
  2:{ left. rewrite getNodes_unauthorized by exact Htok. reflexivity. }
  right. exists (get o "auth_data").
  match goal with |- context [getNodes E ?s] =>
    pose proof (getNodes_inv E s Htok) as Hget;
    destruct (getNodes E s) as [[existNodes | e] s2]
  end; cbn in Hget; subst s2.
  2:{ exists []. reflexivity. }
  destruct (0 <? length _)%nat.
  2:{ exists []. reflexivity. }
  match goal with |- context [batchChange E ?b ?s] =>
    destruct (batchChange_inv E b s Htok) as (evs & Hs & Hevs);
    destruct (batchChange E b s) as [[[] | e] s3]
  end; cbn in Hs; subst s3; exists (posted evs); cbn [snd trace authData] in *.
  - cbn. f_equal. f_equal. now apply requests_from_loop.
  - cbn. f_equal. f_equal. change (requests (evs ++ [Log Error (ChangeRateFailed e)]) = PostSave (get o "auth_data") <$> posted evs).
    rewrite requests_app. cbn. rewrite app_nil_r. now apply requests_from_loop.
Qed.

Section Encoding.

Lemma append_bracket_inj (s1 s2 : string) :
  s1 +:+ "]" = s2 +:+ "]" -> s1 = s2.
Proof.
  revert s2. induction s1 as [| a s1 IH]; intros [| b s2] H; cbn in H.
  - reflexivity.
  - inversion H as [[Ha Hs]]. destruct s2; discriminate.
  - inversion H as [[Ha Hs]]. destruct s1; discriminate.
  - inversion H; subst. f_equal. now apply IH.
Qed.

Lemma group_pair_inj (i j : nat) (g h : value) :
  group_pair i g = group_pair j h -> i = j /\ g = h.
Proof.
  unfold group_pair. intros H. inversion H as [[Hkey Hval]]. split; [| reflexivity].
  change (pretty i +:+ "]" = pretty j +:+ "]") in Hkey.
  apply append_bracket_inj in Hkey. now apply (inj pretty).
Qed.

Lemma imap_group_pair_inj (ids1 ids2 : list value) :
  imap group_pair ids1 = imap group_pair ids2 -> ids1 = ids2.
Proof.
  intros H. apply list_eq. intros i.
  assert (Hi : imap group_pair ids1 !! i = imap group_pair ids2 !! i) by now rewrite H.
  rewrite !list_lookup_imap in Hi.
  destruct (ids1 !! i) as [g |], (ids2 !! i) as [h |]; cbn in Hi;
    try discriminate; [| reflexivity].
  apply (inj Some) in Hi. now apply group_pair_inj in Hi as [_ ->].
Qed.

End Encoding.

(** X15. The posted form of [group_id] loses nothing: the pair built at
    one position equals the pair built at another only if position and id
    agree, so the keys "group_id[i]" of one record are pairwise distinct;
    and two records with array [group_id]s that are posted as the same data
    are the same record. *)
Theorem group_id_encoding_injective (r1 r2 : object) (ids1 ids2 : list value) :
  get r1 "group_id" = VArr ids1 ->
  get r2 "group_id" = VArr ids2 ->
  (forall i j g h,
     ids1 !! i = Some g -> ids1 !! j = Some h ->
     group_pair i g = group_pair j h -> i = j) /\
  (payload r1 = payload r2 -> r1 = r2).
Proof.
  intros H1 H2. split.
  - intros i j g h _ _ Hp. now apply group_pair_inj in Hp as [-> _].
  - assert (Hpay : forall r ids, get r "group_id" = VArr ids ->
              payload r = <["group_id" := VArr (imap group_pair ids)]> r /\
              r !! "group_id" = Some (VArr ids)).
    { intros r ids Hr. split.
      - unfold payload, make_postData. now rewrite Hr.
      - unfold get in Hr. destruct (r !! "group_id"); cbn in Hr; [now subst | discriminate]. }
    destruct (Hpay r1 ids1 H1) as [-> Hg1]. destruct (Hpay r2 ids2 H2) as [-> Hg2].
    intros Heq. apply map_eq. intros key.
    assert (Hkey : (<["group_id" := VArr (imap group_pair ids1)]> r1 : object) !! key =
                   (<["group_id" := VArr (imap group_pair ids2)]> r2 : object) !! key)
      by now rewrite Heq.
    destruct (decide (key = "group_id")) as [-> | Hne].
    + rewrite !lookup_insert_eq in Hkey. inversion Hkey as [Himap].
      apply imap_group_pair_inj in Himap. now rewrite Hg1, Hg2, Himap.
    + rewrite !lookup_insert_ne in Hkey by congruence. exact Hkey.
Qed.

Lemma group_id_encoding_injective_witness :
  (forall i j g h,
     [VNum 1; VNum 3] !! i = Some g -> [VNum 1; VNum 3] !! j = Some h ->
     group_pair i g = group_pair j h -> i = j) /\
  (payload good_record = payload example_node -> good_record = example_node).
Proof.
  apply (group_id_encoding_injective good_record example_node
           [VNum 1; VNum 3] [VNum 1; VNum 3]); reflexivity.
Defined.
